(** * Currency converter: a shallow embedding of [app.py]

    The development follows the three helpers of the application,
    [supported_currencies], [get_rates] and [convert], together with the
    constant table [FALLBACK_RATES].

    Modelling choices, all read off the source:
    - Python [float] is IEEE binary64, embedded as Rocq's primitive [float];
    - Python exceptions are an error monad [result];
    - a Python [dict] keeps insertion order and has unique keys: it is an
      association list, looked up from the front and updated in place;
    - [str.upper] is modelled on ASCII text (currency codes are ASCII);
      bytes outside [a-z] are left as they are;
    - an amount is [None] or a number, an [int] (a [bool] counts as the
      int 0 or 1) or a [float]; [float(amount)] rounds an int to the
      nearest binary64 value and raises [OverflowError] beyond the range;
    - the rates of a table are [float]s, as [Dict[str, float]] says, so
      [float(rates[...])] is the identity;
    - what a float is worth as a real number is read off its sign,
      mantissa and exponent ([float_value]); the exact formula of the
      specification is [exact_convert], over the reals. *)

From Stdlib Require Import Bool List String Ascii NArith ZArith Lia.
From Stdlib Require Import Floats Reals Lra Psatz.
From Stdlib Require Import Permutation Sorted.
Import ListNotations.

Set Warnings "-inexact-float,-register-all".

Local Open Scope string_scope.
Local Open Scope list_scope.

(** ** Exceptions *)

(** The exception classes that the modelled code can meet.  All of them are
    subclasses of Python's [Exception]. *)
Inductive exn : Type :=
| ValueError (msg : string)
| ZeroDivisionError
| KeyError (key : string)
| TypeError
| AttributeError
| OverflowError
| RequestException
| JSONDecodeError.

Inductive result (A : Type) : Type :=
| Return (a : A)
| Raise (e : exn).

Arguments Return {A} a.
Arguments Raise {A} e.

Definition bind {A B : Type} (m : result A) (k : A -> result B) : result B :=
  match m with
  | Return a => k a
  | Raise e => Raise e
  end.

Notation "x <- m ;; k" := (bind m (fun x => k))
  (at level 61, m at next level, right associativity).

Definition raises {A : Type} (m : result A) : Prop := exists e, m = Raise e.

(** ** Strings: [str.upper] and the order used by [sorted] *)

Definition upper_ascii (c : ascii) : ascii :=
  let n := N_of_ascii c in
  if ((97 <=? n) && (n <=? 122))%N then ascii_of_N (n - 32) else c.

Fixpoint upper (s : string) : string :=
  match s with
  | EmptyString => EmptyString
  | String c rest => String (upper_ascii c) (upper rest)
  end.

(** ** Dictionaries *)

Definition pydict (V : Type) : Type := list (string * V).

Section Dict.
Context {V : Type}.

(** [d.get(k)] *)
Fixpoint dict_get (d : pydict V) (k : string) : option V :=
  match d with
  | [] => None
  | (k', v) :: rest => if (k' =? k)%string then Some v else dict_get rest k
  end.

(** [k in d] *)
Definition dict_contains (d : pydict V) (k : string) : bool :=
  match dict_get d k with
  | Some _ => true
  | None => false
  end.

(** [d[k]] *)
Definition dict_getitem (d : pydict V) (k : string) : result V :=
  match dict_get d k with
  | Some v => Return v
  | None => Raise (KeyError k)
  end.

(** [d[k] = v]: an existing key keeps its position, a new key goes last. *)
Fixpoint dict_setitem (d : pydict V) (k : string) (v : V) : pydict V :=
  match d with
  | [] => [(k, v)]
  | (k', v') :: rest =>
      if (k' =? k)%string then (k', v) :: rest
      else (k', v') :: dict_setitem rest k v
  end.

(** [d.keys()] and [d.items()], in insertion order. *)
Definition dict_keys (d : pydict V) : list string := map fst d.
Definition dict_items (d : pydict V) : list (string * V) := d.

(** The truth value of a dictionary: non-empty. *)
Definition dict_truthy (d : pydict V) : bool :=
  match d with
  | [] => false
  | _ :: _ => true
  end.
End Dict.

(** ** Arithmetic *)

(** A number as [convert] can be handed one. *)
Inductive number : Type :=
| NumInt (z : Z)
| NumFloat (f : float).

(** [float(n)] for an [int]: round to nearest even, [OverflowError] beyond
    the binary64 range. *)
Definition float_of_int (z : Z) : result float :=
  match binary_normalize prec emax z 0 false with
  | S754_infinity _ => Raise OverflowError
  | sf => Return (SF2Prim sf)
  end.

(** [float(n)] for a number. *)
Definition float_of_number (n : number) : result float :=
  match n with
  | NumInt z => float_of_int z
  | NumFloat f => Return f
  end.

(** Python's [x / y] on floats: a zero divisor raises [ZeroDivisionError];
    otherwise the quotient is returned (overflow gives an infinity, not an
    error). *)
Definition truediv (x y : float) : result float :=
  if (y =? 0)%float then Raise ZeroDivisionError else Return (x / y)%float.

(** A rate table in the sense of the data model: every rate is positive. *)
Definition rates_positive (rates : pydict float) : Prop :=
  forall k v, dict_get rates k = Some v -> (0 <? v)%float = true.

(** ** [convert] *)

Definition convert (amount : option number)
    (from_currency to_currency : string) (rates : pydict float)
    : result float :=
  match amount with
  | None => Return 0%float
  | Some amount =>
      let from_currency := upper from_currency in
      let to_currency := upper to_currency in
      if (from_currency =? to_currency)%string then float_of_number amount
      else if negb (dict_contains rates from_currency)
              || negb (dict_contains rates to_currency)
      then Raise (ValueError "Unsupported currency")
      else
        amount <- float_of_number amount ;;
        rate_from <- dict_getitem rates from_currency ;;
        base_amount <- truediv amount rate_from ;;
        rate_to <- dict_getitem rates to_currency ;;
        Return (base_amount * rate_to)%float
  end.

(** ** [sorted] on lists of strings *)

(** Strings compare by code point, lexicographically.  [sorted] is a stable
    sort; on strings its result is fixed by the order alone. *)
Fixpoint insert_sorted (x : string) (l : list string) : list string :=
  match l with
  | [] => [x]
  | y :: rest =>
      if String.leb x y then x :: y :: rest else y :: insert_sorted x rest
  end.

Definition sorted (l : list string) : list string :=
  fold_right insert_sorted [] l.

(** The order [sorted] sorts by, and its strict part. *)
Definition str_le (a b : string) : Prop := String.leb a b = true.
Definition str_lt (a b : string) : Prop := String.ltb a b = true.

(** ** The fallback table and [supported_currencies] *)

Definition FALLBACK_RATES : pydict float :=
  [ ("USD", 1.0%float);
    ("EUR", 0.92%float);
    ("GBP", 0.80%float);
    ("JPY", 150.0%float);
    ("INR", 83.0%float);
    ("CAD", 1.35%float);
    ("AUD", 1.55%float) ].

Definition supported_currencies : list string :=
  sorted (dict_keys FALLBACK_RATES).

(** ** The live source: [requests] and decoded JSON *)

(** A decoded JSON document, as [resp.json()] returns it.  The keys of a
    JSON object are strings; the object is kept as its [items()]. *)
Inductive pyobj : Type :=
| PyNone
| PyBool (b : bool)
| PyInt (z : Z)
| PyFloat (f : float)
| PyStr (s : string)
| PyList (elems : list pyobj)
| PyDict (items : list (string * pyobj)).

Record response : Type := {
  status_code : Z;
  json : result pyobj      (* [resp.json()] may raise *)
}.

(** What the interpreter provides and the source does not define: the
    [requests] module ([None] when the import failed), whose [get] takes
    the URL and the timeout, and the parser behind [float(str)]. *)
Record runtime : Type := {
  requests : option (string -> Z -> result response);
  float_of_str : string -> result float
}.

(** [float(v)] *)
Definition py_float (rt : runtime) (v : pyobj) : result float :=
  match v with
  | PyFloat f => Return f
  | PyInt z => float_of_int z
  | PyBool b => Return (if b then 1%float else 0%float)
  | PyStr s => float_of_str rt s
  | PyNone | PyList _ | PyDict _ => Raise TypeError
  end.

(** [data.get(key)]: only a dictionary has the method. *)
Definition py_get (data : pyobj) (key : string) : result pyobj :=
  match data with
  | PyDict items =>
      Return (match dict_get items key with Some v => v | None => PyNone end)
  | _ => Raise AttributeError
  end.

(** ** [get_rates] *)

(** [{k.upper(): float(v) for k, v in rates.items()}] *)
Fixpoint live_table (rt : runtime) (items : list (string * pyobj))
    (acc : pydict float) : result (pydict float) :=
  match items with
  | [] => Return acc
  | (k, v) :: rest =>
      f <- py_float rt v ;;
      live_table rt rest (dict_setitem acc (upper k) f)
  end.

(** [f"https://api.exchangerate.host/latest?base={base}"] *)
Definition rates_url (base : string) : string :=
  ("https://api.exchangerate.host/latest?base=" ++ base)%string.

(** The body of the [try] block: [Return (Some t)] when it reaches its
    [return], [Return None] when it falls through, [Raise e] otherwise. *)
Definition live_rates (rt : runtime) (get : string -> Z -> result response)
    (base : string) : result (option (pydict float)) :=
  let url := rates_url base in
  resp <- get url 5%Z ;;
  if (status_code resp =? 200)%Z then
    data <- json resp ;;
    rates <- py_get data "rates" ;;
    match rates with
    | PyDict items =>
        if dict_truthy items
        then (table <- live_table rt items [] ;; Return (Some table))
        else Return None
    | _ => Return None
    end
  else Return None.

(** [try: ... except Exception: pass] *)
Definition try_except_pass {A : Type} (body : result (option A)) : option A :=
  match body with
  | Return r => r
  | Raise _ => None
  end.

(** The guarded live attempt, [base] already uppercased. *)
Definition live_attempt (rt : runtime) (base : string)
    : option (pydict float) :=
  match requests rt with
  | Some get => try_except_pass (live_rates rt get base)
  | None => None
  end.

(** [{k: v / base_rate for k, v in FALLBACK_RATES.items()}] *)
Fixpoint scaled_table (items : list (string * float)) (base_rate : float)
    (acc : pydict float) : result (pydict float) :=
  match items with
  | [] => Return acc
  | (k, v) :: rest =>
      q <- truediv v base_rate ;;
      scaled_table rest base_rate (dict_setitem acc k q)
  end.

(** The lines after the [try] block, [base] already uppercased. *)
Definition fallback_rates (base : string) : result (pydict float) :=
  base_rate <- match dict_get FALLBACK_RATES base with
               | Some r => Return r
               | None => dict_getitem FALLBACK_RATES "USD"
               end ;;
  scaled_table (dict_items FALLBACK_RATES) base_rate [].

Definition get_rates (rt : runtime) (base : string) : result (pydict float) :=
  let base := upper base in
  match live_attempt rt base with
  | Some rates => Return rates
  | None => fallback_rates base
  end.

(** The ways the live retrieval can fail to produce a table, [base] already
    uppercased: no client library, a transport error, a status other than
    200, a body that does not decode, a payload that is not an object, a
    [rates] entry that is missing or is not an object, an empty [rates]
    object, and a rate that [float] rejects. *)
Inductive live_failure (rt : runtime) (base : string) : Prop :=
| client_absent :
    requests rt = None -> live_failure rt base
| transport_error (get : string -> Z -> result response) (e : exn) :
    requests rt = Some get ->
    get (rates_url base) 5%Z = Raise e ->
    live_failure rt base
| bad_status (get : string -> Z -> result response) (resp : response) :
    requests rt = Some get ->
    get (rates_url base) 5%Z = Return resp ->
    status_code resp <> 200%Z ->
    live_failure rt base
| malformed_body (get : string -> Z -> result response) (resp : response)
    (e : exn) :
    requests rt = Some get ->
    get (rates_url base) 5%Z = Return resp ->
    status_code resp = 200%Z ->
    json resp = Raise e ->
    live_failure rt base
| payload_not_object (get : string -> Z -> result response)
    (resp : response) (data : pyobj) :
    requests rt = Some get ->
    get (rates_url base) 5%Z = Return resp ->
    status_code resp = 200%Z ->
    json resp = Return data ->
    (forall items, data <> PyDict items) ->
    live_failure rt base
| rates_missing (get : string -> Z -> result response) (resp : response)
    (items : list (string * pyobj)) :
    requests rt = Some get ->
    get (rates_url base) 5%Z = Return resp ->
    status_code resp = 200%Z ->
    json resp = Return (PyDict items) ->
    (forall entries, dict_get items "rates" <> Some (PyDict entries)) ->
    live_failure rt base
| rates_empty (get : string -> Z -> result response) (resp : response)
    (items : list (string * pyobj)) :
    requests rt = Some get ->
    get (rates_url base) 5%Z = Return resp ->
    status_code resp = 200%Z ->
    json resp = Return (PyDict items) ->
    dict_get items "rates" = Some (PyDict []) ->
    live_failure rt base
| rate_not_numeric (get : string -> Z -> result response) (resp : response)
    (items entries : list (string * pyobj)) (e : exn) :
    requests rt = Some get ->
    get (rates_url base) 5%Z = Return resp ->
    status_code resp = 200%Z ->
    json resp = Return (PyDict items) ->
    dict_get items "rates" = Some (PyDict entries) ->
    live_table rt entries [] = Raise e ->
    live_failure rt base.

(** ** The fallback path, as the specification words it *)

(** The reference rate: the fallback rate of [base] when it is a key, the
    rate of USD otherwise. *)
Definition reference_rate (base : string) : option float :=
  match dict_get FALLBACK_RATES base with
  | Some r => Some r
  | None => dict_get FALLBACK_RATES "USD"
  end.

(** [{code: FALLBACK_RATES[code] / ref}], every entry divided by [ref]. *)
Definition rebased (ref : float) : pydict float :=
  map (fun kv => (fst kv, (snd kv / ref)%float)) FALLBACK_RATES.

(** ** Converting there and back *)

Definition round_trip (a : number) (X Y : string) (rates : pydict float)
    : result float :=
  there <- convert (Some a) X Y rates ;;
  convert (Some (NumFloat there)) Y X rates.

(** [convert] with an intermediate currency: X to Y, then Y to Z. *)
Definition convert_via (a : number) (X Y Z : string) (rates : pydict float)
    : result float :=
  via <- convert (Some a) X Y rates ;;
  convert (Some (NumFloat via)) Y Z rates.

(** ** Floats as real numbers *)

Definition sign_R (s : bool) : R := if s then (-1)%R else 1%R.

(** The real number a float stands for; zero for the values that stand
    for none (infinities, NaN). *)
Definition SF2R (x : spec_float) : R :=
  match x with
  | S754_finite s m e => (sign_R s * IZR (Zpos m) * powerRZ 2 e)%R
  | _ => 0%R
  end.

Definition float_value (x : float) : R := SF2R (Prim2SF x).

(** The real number an amount stands for. *)
Definition number_value (n : number) : R :=
  match n with
  | NumInt z => IZR z
  | NumFloat f => float_value f
  end.

(** A normal number: finite, not zero, with a full 53-bit mantissa.  A
    result that overflowed (an infinity) or underflowed (a subnormal or a
    zero) is not normal. *)
Definition is_normal (x : float) : bool :=
  match classify x with
  | PNormal | NNormal => true
  | _ => false
  end.

(** The weight of the last bit of a normal number, relative to it. *)
Definition eps64 : R := (/ 4503599627370496)%R.

(** The formula of the specification, in exact arithmetic:
    [base_amount = amount / rates[from]; result = base_amount * rates[to]]. *)
Definition exact_convert (a rate_from rate_to : R) : R :=
  (a / rate_from * rate_to)%R.

(** ** [math.isclose], the tolerance the tests use *)

(** [math.isclose(a, b, rel_tol=..., abs_tol=...)]: equal values are close,
    an infinity is close to nothing else, and otherwise the distance is
    compared with the tolerances.  The tests leave [abs_tol] at [0.0]. *)
Definition isclose (a b rel_tol abs_tol : float) : result bool :=
  if (rel_tol <? 0)%float || (abs_tol <? 0)%float
  then Raise (ValueError "tolerances must be non-negative")
  else if (a =? b)%float then Return true
  else if (abs a =? infinity)%float || (abs b =? infinity)%float
  then Return false
  else
    let diff := abs (b - a)%float in
    Return ((diff <=? abs (rel_tol * b))%float
            || (diff <=? abs (rel_tol * a))%float
            || (diff <=? abs_tol)%float).

(** ** Checks on concrete inputs *)

(** A runtime without the [requests] module. *)
Definition offline : runtime :=
  {| requests := None; float_of_str := fun _ => Raise (ValueError "") |}.

(** A runtime whose rate service answers with status 500. *)
Definition server_error : runtime :=
  {| requests :=
       Some (fun _ _ =>
               Return {| status_code := 500; json := Raise JSONDecodeError |});
     float_of_str := fun _ => Raise (ValueError "") |}.

(** A runtime whose rate service answers with two rates, one of them under
    a lowercase key and as an integer. *)
Definition live_service : runtime :=
  {| requests :=
       Some (fun _ _ =>
               Return {| status_code := 200;
                         json := Return (PyDict
                           [("base", PyStr "USD");
                            ("rates", PyDict [("usd", PyInt 1);
                                              ("EUR", PyFloat 0.5%float)])])
                      |});
     float_of_str := fun _ => Raise (ValueError "") |}.

(** The table of the test suite. *)
Definition test_rates : pydict float :=
  [("USD", 1.0%float); ("EUR", 0.9%float); ("GBP", 0.8%float)].

(** ** [run]: the Streamlit page *)

(** The bytes of the [page_icon] literal of the source. *)
Definition page_icon : string :=
  string_of_list_ascii
    (map ascii_of_nat [195; 176; 197; 184; 226; 128; 153; 194; 177]%nat).

(** The calls [run] makes on the [streamlit] module.  [StError e] stands
    for [st.error(str(e))]. *)
Inductive st_call : Type :=
| StSetPageConfig (page_title icon layout : string)
| StTitle (body : string)
| StColumns (spec : list Z)
| StNumberInput (column : nat) (label : string) (value step : float)
    (format : string)
| StSelectbox (column : nat) (label : string) (options : list string)
    (index : nat)
| StMetric (label value : string)
| StError (e : exn)
| StMarkdown (body : string)
| StWrite (body : string)
| StDataframe (rows : list (string * float)).

(** What the widgets hand back: the number in the input box, given its
    label and initial value, and the option selected in a select box,
    given its label, options and initial index. *)
Record streamlit : Type := {
  number_input_value : string -> float -> float;
  selectbox_value : string -> list string -> nat -> string
}.

(** A select box hands back one of its options. *)
Definition selectbox_sound (st : streamlit) : Prop :=
  forall label options index,
    options <> [] -> In (selectbox_value st label options index) options.

(** What [run] finds around it: the [streamlit] module ([None] when the
    import fails), whether [pandas] can be imported, the formatting behind
    [f"{result:,.2f}"] and [json.dumps(rates, indent=2)].  The widget
    calls themselves are taken to return normally. *)
Record page_runtime : Type := {
  streamlit_module : option streamlit;
  pandas_module : bool;
  format_amount : float -> string;
  json_dumps : pydict float -> string
}.

(** [DataFrame(...).sort_values("Currency")]: rows in ascending order of
    their code.  The codes of a dictionary are distinct, so the order of
    the rows is fixed by the codes. *)
Fixpoint insert_row (row : string * float) (rows : list (string * float))
    : list (string * float) :=
  match rows with
  | [] => [row]
  | r :: rest =>
      if String.leb (fst row) (fst r) then row :: r :: rest
      else r :: insert_row row rest
  end.

Definition sort_values_currency (rows : list (string * float))
    : list (string * float) :=
  fold_right insert_row [] rows.

(** What can end [run] early: its own [RuntimeError], or an exception of
    [get_rates], which [run] does not catch. *)
Inductive run_exn : Type :=
| RuntimeError (msg : string)
| Uncaught (e : exn).

Inductive page_result : Type :=
| Rendered (calls : list st_call)
| Aborted (e : run_exn).

Definition run (rt : runtime) (page : page_runtime) : page_result :=
  match streamlit_module page with
  | None =>
      Aborted (RuntimeError
        "Streamlit is required to run the app. Install with `pip install streamlit`.")
  | Some st =>
      let from_amt := number_input_value st "Amount" 100.0%float in
      let from_curr := selectbox_value st "From" supported_currencies 0 in
      let to_curr := selectbox_value st "To" supported_currencies 1 in
      match get_rates rt "USD" with
      | Raise e => Aborted (Uncaught e)
      | Return rates =>
          Rendered
            [ StSetPageConfig "Currency Converter" page_icon "centered";
              StTitle "Currency Converter";
              StColumns [1%Z; 2%Z; 1%Z];
              StNumberInput 1 "Amount" 100.0%float 1.0%float "%.2f";
              StSelectbox 0 "From" supported_currencies 0;
              StSelectbox 2 "To" supported_currencies 1;
              match convert (Some (NumFloat from_amt)) from_curr to_curr
                      rates with
              | Return result =>
                  StMetric "Converted amount"
                    (format_amount page result ++ " " ++ to_curr)%string
              | Raise e => StError e
              end;
              StMarkdown "---";
              StWrite "Using these rates (relative to USD):";
              if pandas_module page
              then StDataframe (sort_values_currency (dict_items rates))
              else StWrite (json_dumps page rates) ]
      end
  end.

(** A session in which nothing was touched: every widget hands back its
    initial value. *)
Definition untouched : streamlit :=
  {| number_input_value := fun _ value => value;
     selectbox_value := fun _ options index =>
                          nth index options (hd "" options) |}.

Definition plain_page : page_runtime :=
  {| streamlit_module := Some untouched;
     pandas_module := false;
     format_amount := fun _ => "";
     json_dumps := fun _ => "" |}.

(** A machine without [streamlit]. *)
Definition no_streamlit : page_runtime :=
  {| streamlit_module := None;
     pandas_module := false;
     format_amount := fun _ => "";
     json_dumps := fun _ => "" |}.

(** The payload of [live_service], and the entries under ["rates"]. *)
Definition live_entries : list (string * pyobj) :=
  [("usd", PyInt 1); ("EUR", PyFloat 0.5%float)].

Definition live_payload : list (string * pyobj) :=
  [("base", PyStr "USD"); ("rates", PyDict live_entries)].

(** A runtime whose rate service answers with a null rate among good
    ones. *)
Definition null_entries : list (string * pyobj) :=
  [("USD", PyFloat 1%float); ("EUR", PyNone); ("GBP", PyFloat 0.8%float)].

Definition null_response : response :=
  {| status_code := 200;
     json := Return (PyDict [("rates", PyDict null_entries)]) |}.

Definition null_rate_service : runtime :=
  {| requests := Some (fun _ _ => Return null_response);
     float_of_str := fun _ => Raise (ValueError "") |}.

(** A payload that names the same currency twice, in two spellings. *)
Definition twice_entries : list (string * pyobj) :=
  [("eur", PyFloat 0.5%float); ("USD", PyInt 1); ("EUR", PyFloat 0.9%float)].

(** A table whose rate for the source currency is a negative zero. *)
Definition zero_rates : pydict float :=
  [("USD", (-0)%float); ("EUR", 0.9%float)].

(** ** A table expressed in another base *)

(** [{k: v / c for k, v in rates.items()}]: the comprehension of the
    fallback path of [get_rates], for any table and any non-zero
    divisor. *)
Definition rescale (c : float) (rates : pydict float) : pydict float :=
  map (fun kv => (fst kv, (snd kv / c)%float)) rates.

Example convert_usd_eur :
  convert (Some (NumInt 100)) "USD" "EUR" test_rates = Return 90%float.
Proof. vm_compute. reflexivity. Qed.

Example convert_eur_gbp :
  match convert (Some (NumInt 90)) "EUR" "GBP" test_rates with
  | Return out => isclose out 80%float 1e-9%float 0%float = Return true
  | Raise _ => False
  end.
Proof. vm_compute. reflexivity. Qed.

Example convert_same_currency :
  convert (Some (NumInt 50)) "USD" "USD" [("USD", 1.0%float)]
  = Return 50%float.
Proof. vm_compute. reflexivity. Qed.

Example convert_unsupported :
  convert (Some (NumInt 10)) "USD" "XXX" [("USD", 1.0%float)]
  = Raise (ValueError "Unsupported currency").
Proof. reflexivity. Qed.

Example supported_currencies_value :
  supported_currencies = ["AUD"; "CAD"; "EUR"; "GBP"; "INR"; "JPY"; "USD"].
Proof. reflexivity. Qed.

Example float_of_int_3 : float_of_int 3 = Return 3%float.
Proof. vm_compute. reflexivity. Qed.

Example float_of_int_huge : float_of_int (2 ^ 1024) = Raise OverflowError.
Proof. vm_compute. reflexivity. Qed.

Example get_rates_live :
  get_rates live_service "usd"
  = Return [("USD", 1%float); ("EUR", 0.5%float)].
Proof. vm_compute. reflexivity. Qed.

Example get_rates_server_error :
  get_rates server_error "GBP" = fallback_rates "GBP".
Proof. reflexivity. Qed.

Example upper_usd : upper "usd" = "USD".
Proof. reflexivity. Qed.

(** * Properties *)

(** ** Rounding *)

(** The rounding of the float operations shifts a mantissa right, which
    is a floor division by a power of two, and then moves it up by at
    most one: the result lies within one unit of its last place of the
    exact value. *)

Local Open Scope Z_scope.

Lemma shr_1_m (mrs : shr_record) :
  0 <= shr_m mrs -> shr_m (shr_1 mrs) = shr_m mrs / 2.
Proof.
  destruct mrs as [m r s]. simpl. intros Hm.
  rewrite <- Z.div2_div.
  destruct m as [| p | p]; [reflexivity | | lia].
  destruct p; reflexivity.
Qed.

Lemma iter_shr_1_m (p : positive) :
  forall mrs, 0 <= shr_m mrs ->
    shr_m (SpecFloat.iter_pos shr_1 p mrs) = shr_m mrs / 2 ^ Zpos p.
Proof.
  induction p as [p IH | p IH |]; intros mrs Hm; cbn [SpecFloat.iter_pos].
  - assert (H1 : 0 <= shr_m (shr_1 mrs)).
    { rewrite shr_1_m by exact Hm. apply Z.div_pos; lia. }
    assert (H2 : 0 <= shr_m (SpecFloat.iter_pos shr_1 p (shr_1 mrs))).
    { rewrite IH by exact H1. apply Z.div_pos; [exact H1 | lia]. }
    rewrite IH by exact H2. rewrite IH by exact H1.
    rewrite shr_1_m by exact Hm.
    rewrite !Z.div_div by lia.
    f_equal.
    replace (Z.pos p~1) with (1 + Z.pos p + Z.pos p) by lia.
    rewrite !Z.pow_add_r by lia. change (2 ^ 1) with 2. ring.
  - assert (H2 : 0 <= shr_m (SpecFloat.iter_pos shr_1 p mrs)).
    { rewrite IH by exact Hm. apply Z.div_pos; [exact Hm | lia]. }
    rewrite IH by exact H2. rewrite IH by exact Hm.
    rewrite !Z.div_div by lia.
    f_equal.
    replace (Z.pos p~0) with (Z.pos p + Z.pos p) by lia.
    rewrite !Z.pow_add_r by lia. ring.
  - rewrite Z.pow_1_r. now apply shr_1_m.
Qed.

Lemma shr_spec (mrs mrs' : shr_record) (e n e' : Z) :
  0 <= shr_m mrs ->
  shr mrs e n = (mrs', e') ->
  e' = e + Z.max 0 n /\ shr_m mrs' = shr_m mrs / 2 ^ Z.max 0 n.
Proof.
  intros Hm. unfold shr.
  destruct n as [| p | p]; intros [= <- <-].
  - rewrite Z.max_id. simpl. split; [lia | now rewrite Z.div_1_r].
  - rewrite Z.max_r by lia. split; [reflexivity | now apply iter_shr_1_m].
  - rewrite Z.max_l by lia. simpl. split; [lia | now rewrite Z.div_1_r].
Qed.

Lemma shr_record_of_loc_m (m : Z) (l : location) :
  shr_m (shr_record_of_loc m l) = m.
Proof. destruct l as [| []]; reflexivity. Qed.

Lemma round_nearest_even_bound (m : Z) (l : location) :
  m <= round_nearest_even m l <= m + 1.
Proof.
  destruct l as [| []]; simpl; try lia.
  destruct (Z.even m); lia.
Qed.

Lemma binary_round_aux_bound (sx : bool) (mx ex : Z) (lx : location)
    (s : bool) (m : positive) (e : Z) :
  0 <= mx ->
  binary_round_aux prec emax sx mx ex lx = S754_finite s m e ->
  s = sx /\ ex <= e
  /\ (Zpos m - 1) * 2 ^ (e - ex) <= mx
  /\ mx + 1 <= (Zpos m + 1) * 2 ^ (e - ex).
Proof.
  intros Hmx. unfold binary_round_aux, shr_fexp.
  destruct (shr (shr_record_of_loc mx lx) ex
              (fexp prec emax (Zdigits2 mx + ex) - ex)) as [mrs1 e1] eqn:H1.
  apply shr_spec in H1; [| now rewrite shr_record_of_loc_m].
  rewrite shr_record_of_loc_m in H1. destruct H1 as [He1 Hq1].
  set (r1 := round_nearest_even (shr_m mrs1) (loc_of_shr_record mrs1)).
  pose proof (round_nearest_even_bound (shr_m mrs1) (loc_of_shr_record mrs1))
    as Hr1. fold r1 in Hr1.
  assert (Hq1pos : 0 <= shr_m mrs1).
  { rewrite Hq1. apply Z.div_pos; [exact Hmx | lia]. }
  destruct (shr (shr_record_of_loc r1 loc_Exact) e1
              (fexp prec emax (Zdigits2 r1 + e1) - e1)) as [mrs2 e2] eqn:H2.
  apply shr_spec in H2; [| rewrite shr_record_of_loc_m; lia].
  rewrite shr_record_of_loc_m in H2. destruct H2 as [He2 Hm2].
  destruct (shr_m mrs2) as [| m2 | m2] eqn:Hmrs2; try discriminate.
  destruct (e2 <=? emax - prec); [| discriminate].
  intros [= <- <- <-].
  set (a := Z.max 0 (fexp prec emax (Zdigits2 mx + ex) - ex)) in *.
  set (b := Z.max 0 (fexp prec emax (Zdigits2 r1 + e1) - e1)) in *.
  assert (Ha : 0 <= a) by apply Z.le_max_l.
  assert (Hb : 0 <= b) by apply Z.le_max_l.
  split; [reflexivity |]. split; [lia |].
  replace (e2 - ex) with (a + b) by lia.
  rewrite Z.pow_add_r by assumption.
  assert (HA : 0 < 2 ^ a) by (apply Z.pow_pos_nonneg; lia).
  assert (HB : 0 < 2 ^ b) by (apply Z.pow_pos_nonneg; lia).
  pose proof (Z.div_mod mx (2 ^ a) ltac:(lia)) as Hd1.
  pose proof (Z.mod_pos_bound mx (2 ^ a) HA) as Hd1'.
  pose proof (Z.div_mod r1 (2 ^ b) ltac:(lia)) as Hd2.
  pose proof (Z.mod_pos_bound r1 (2 ^ b) HB) as Hd2'.
  rewrite <- Hq1 in Hd1. rewrite <- Hm2 in Hd2.
  generalize dependent (2 ^ a). generalize dependent (2 ^ b).
  intros B HB Hd2 Hd2' A HA Hd1 Hd1'.
  split; nia.
Qed.

Local Close Scope Z_scope.
Local Open Scope R_scope.

Lemma two_pow_pos (e : Z) : 0 < powerRZ 2 e.
Proof. apply powerRZ_lt. lra. Qed.

Lemma IZR_two_pow (k : Z) : (0 <= k)%Z -> IZR (2 ^ k) = powerRZ 2 k.
Proof.
  intros Hk. rewrite <- (Z2Nat.id k Hk).
  now rewrite <- pow_IZR, pow_powerRZ.
Qed.

Lemma sign_R_xorb (a b : bool) : sign_R (xorb a b) = sign_R a * sign_R b.
Proof. destruct a, b; simpl; lra. Qed.

Lemma Rabs_sign_R (s : bool) (x : R) : Rabs (sign_R s * x) = Rabs x.
Proof.
  destruct s; simpl.
  - replace (-1 * x) with (- x) by lra. apply Rabs_Ropp.
  - now rewrite Rmult_1_l.
Qed.

(** Integer bounds at a coarser exponent, read as reals. *)
Lemma scaled_bounds (m : positive) (p e0 e : Z) :
  (e0 <= e)%Z ->
  ((Zpos m - 1) * 2 ^ (e - e0) <= p)%Z ->
  (p + 1 <= (Zpos m + 1) * 2 ^ (e - e0))%Z ->
  (IZR (Zpos m) - 1) * powerRZ 2 e <= IZR p * powerRZ 2 e0
  /\ (IZR p + 1) * powerRZ 2 e0 <= (IZR (Zpos m) + 1) * powerRZ 2 e.
Proof.
  intros He Hlo Hhi.
  apply IZR_le in Hlo, Hhi.
  rewrite mult_IZR, minus_IZR in Hlo.
  rewrite mult_IZR, !plus_IZR in Hhi.
  rewrite IZR_two_pow in Hlo, Hhi by lia.
  assert (Hpow : powerRZ 2 e = powerRZ 2 (e - e0) * powerRZ 2 e0).
  { rewrite <- powerRZ_add by lra. f_equal. lia. }
  rewrite Hpow.
  pose proof (two_pow_pos e0) as H0.
  pose proof (two_pow_pos (e - e0)) as Hk.
  split; nra.
Qed.

Lemma SFmul_close (x y : spec_float) (s : bool) (m : positive) (e : Z) :
  SF64mul x y = S754_finite s m e ->
  Rabs (SF2R (S754_finite s m e) - SF2R x * SF2R y) <= powerRZ 2 e.
Proof.
  destruct x as [sx | sx | | sx mx ex], y as [sy | sy | | sy my ey];
    try discriminate.
  unfold SF64mul, SFmul. intros Hround.
  apply binary_round_aux_bound in Hround; [| lia].
  destruct Hround as (-> & He & Hlo & Hhi).
  destruct (scaled_bounds m _ _ e He Hlo Hhi) as [Hlo' Hhi'].
  cbn [SF2R]. rewrite sign_R_xorb.
  replace (sign_R sx * sign_R sy * IZR (Z.pos m) * powerRZ 2 e -
           sign_R sx * IZR (Z.pos mx) * powerRZ 2 ex *
           (sign_R sy * IZR (Z.pos my) * powerRZ 2 ey))
    with (sign_R sx * (sign_R sy *
            (IZR (Z.pos m) * powerRZ 2 e
             - IZR (Z.pos (mx * my)) * powerRZ 2 (ex + ey)))).
  2:{ rewrite Pos2Z.inj_mul, mult_IZR, powerRZ_add by lra. ring. }
  rewrite !Rabs_sign_R.
  pose proof (two_pow_pos e). pose proof (two_pow_pos (ex + ey)).
  apply Rabs_le. split; lra.
Qed.

Lemma SFdiv_core_spec (mx my : positive) (ex ey q e' : Z) (l : location) :
  SFdiv_core_binary prec emax (Zpos mx) ex (Zpos my) ey = (q, e', l) ->
  exists s : Z,
    (0 <= s)%Z /\ (ex - ey = s + e')%Z /\ (0 <= q)%Z
    /\ (Zpos my * q <= Zpos mx * 2 ^ s)%Z
    /\ (Zpos mx * 2 ^ s + 1 <= Zpos my * (q + 1))%Z.
Proof.
  unfold SFdiv_core_binary.
  set (e0 := Z.min (fexp prec emax
                      (Zdigits2 (Zpos mx) + ex - (Zdigits2 (Zpos my) + ey)))
                   (ex - ey)).
  set (s := (ex - ey - e0)%Z).
  assert (Hs : (0 <= s)%Z) by (unfold s, e0; lia).
  set (m' := match s with
             | Z0 => Zpos mx
             | Zpos _ => Z.shiftl (Zpos mx) s
             | Zneg _ => 0%Z
             end).
  assert (Hm' : m' = (Zpos mx * 2 ^ s)%Z).
  { unfold m'. destruct s as [| p | p] eqn:Hsp.
    - simpl. lia.
    - now rewrite Z.shiftl_mul_pow2.
    - lia. }
  pose proof (Z_div_mod m' (Zpos my) ltac:(lia)) as Hdiv.
  destruct (Z.div_eucl m' (Z.pos my)) as [q0 r0].
  destruct Hdiv as [Heq Hr].
  intros [= <- <- <-].
  exists s. rewrite <- Hm'.
  repeat split; try lia.
  assert (0 <= m')%Z by (rewrite Hm'; apply Z.mul_nonneg_nonneg; [lia |];
                           apply Z.pow_nonneg; lia).
  nia.
Qed.

Lemma SFdiv_close (x y : spec_float) (s : bool) (m : positive) (e : Z) :
  SF64div x y = S754_finite s m e ->
  SF2R y <> 0
  /\ Rabs (SF2R (S754_finite s m e) - SF2R x / SF2R y) <= powerRZ 2 e.
Proof.
  destruct x as [sx | sx | | sx mx ex], y as [sy | sy | | sy my ey];
    try discriminate.
  unfold SF64div, SFdiv.
  destruct (SFdiv_core_binary prec emax (Z.pos mx) ex (Z.pos my) ey)
    as [[q e'] l] eqn:Hcore.
  apply SFdiv_core_spec in Hcore.
  destruct Hcore as (sh & Hsh & Hex & Hq & Hqlo & Hqhi).
  intros Hround.
  apply binary_round_aux_bound in Hround; [| exact Hq].
  destruct Hround as (-> & He & Hlo & Hhi).
  destruct (scaled_bounds m _ _ e He Hlo Hhi) as [Hlo' Hhi'].
  pose proof (two_pow_pos e) as Hpe. pose proof (two_pow_pos e') as Hpe'.
  pose proof (two_pow_pos ex) as Hpex. pose proof (two_pow_pos ey) as Hpey.
  assert (Hmy : 0 < IZR (Z.pos my)) by (apply IZR_lt; lia).
  assert (Hsy : sign_R sy <> 0) by (destruct sy; simpl; lra).
  assert (Hy : SF2R (S754_finite sy my ey) <> 0).
  { cbn [SF2R]. apply Rmult_integral_contrapositive_currified;
      [apply Rmult_integral_contrapositive_currified |]; lra. }
  split; [exact Hy |].
  set (W := IZR (Z.pos mx) * powerRZ 2 sh / IZR (Z.pos my)).
  assert (HW : IZR q <= W /\ W + / IZR (Z.pos my) <= IZR q + 1).
  { apply IZR_le in Hqlo. apply IZR_le in Hqhi.
    rewrite !mult_IZR in Hqlo.
    rewrite plus_IZR, !mult_IZR, plus_IZR in Hqhi.
    rewrite IZR_two_pow in Hqlo, Hqhi by exact Hsh.
    unfold W. split.
    - apply Rmult_le_reg_r with (IZR (Z.pos my)); [exact Hmy |].
      unfold Rdiv. rewrite Rmult_assoc, Rinv_l by lra. lra.
    - apply Rmult_le_reg_r with (IZR (Z.pos my)); [exact Hmy |].
      unfold Rdiv. rewrite Rmult_plus_distr_r, Rmult_assoc, !Rinv_l by lra.
      lra. }
  assert (Hinv : 0 < / IZR (Z.pos my)) by now apply Rinv_0_lt_compat.
  assert (Hquot : SF2R (S754_finite sx mx ex) / SF2R (S754_finite sy my ey)
                  = sign_R sx * (sign_R sy * (W * powerRZ 2 e'))).
  { cbn [SF2R]. unfold W.
    assert (Hpow : powerRZ 2 ex = powerRZ 2 sh * powerRZ 2 e' * powerRZ 2 ey).
    { rewrite <- !powerRZ_add by lra. f_equal. lia. }
    rewrite Hpow. destruct sx, sy; simpl; field; lra. }
  rewrite Hquot. cbn [SF2R]. rewrite sign_R_xorb.
  replace (sign_R sx * sign_R sy * IZR (Z.pos m) * powerRZ 2 e -
           sign_R sx * (sign_R sy * (W * powerRZ 2 e')))
    with (sign_R sx * (sign_R sy *
            (IZR (Z.pos m) * powerRZ 2 e - W * powerRZ 2 e'))) by ring.
  rewrite !Rabs_sign_R.
  apply Rabs_le. split; nra.
Qed.

Lemma digits2_pos_lower (p : positive) :
  (2 ^ (Zpos (digits2_pos p) - 1) <= Zpos p)%Z.
Proof.
  induction p as [p IH | p IH |]; cbn [digits2_pos].
  - rewrite Pos2Z.inj_succ.
    replace (Z.succ (Z.pos (digits2_pos p)) - 1)%Z
      with (1 + (Z.pos (digits2_pos p) - 1))%Z by lia.
    rewrite Z.pow_add_r by lia. change (2 ^ 1)%Z with 2%Z. lia.
  - rewrite Pos2Z.inj_succ.
    replace (Z.succ (Z.pos (digits2_pos p)) - 1)%Z
      with (1 + (Z.pos (digits2_pos p) - 1))%Z by lia.
    rewrite Z.pow_add_r by lia. change (2 ^ 1)%Z with 2%Z. lia.
  - simpl. lia.
Qed.

Lemma normal_finite (x : float) :
  is_normal x = true ->
  exists s m e,
    Prim2SF x = S754_finite s m e /\ (4503599627370496 <= Zpos m)%Z.
Proof.
  unfold is_normal. rewrite classify_spec. unfold SF64classify, SFclassify.
  destruct (Prim2SF x) as [s | s | | s m e];
    try (destruct s; discriminate); try discriminate.
  intros Hc. exists s, m, e. split; [reflexivity |].
  assert (Hd : Zpos (digits2_pos m) = prec).
  { destruct s; destruct (Z.eqb_spec (Z.pos (digits2_pos m)) prec);
      try discriminate; assumption. }
  pose proof (digits2_pos_lower m) as Hlow. rewrite Hd in Hlow.
  exact Hlow.
Qed.

Lemma ulp_relative (s : bool) (m : positive) (e : Z) :
  (4503599627370496 <= Zpos m)%Z ->
  powerRZ 2 e <= eps64 * Rabs (SF2R (S754_finite s m e)).
Proof.
  intros Hm. cbn [SF2R]. rewrite Rmult_assoc, Rabs_sign_R.
  pose proof (two_pow_pos e) as Hp. apply IZR_le in Hm.
  rewrite Rabs_pos_eq by (apply Rmult_le_pos; lra).
  unfold eps64.
  apply Rmult_le_reg_l with 4503599627370496; [lra |].
  rewrite <- Rmult_assoc, Rinv_r by lra. nra.
Qed.

Lemma mul_close (x y : float) :
  is_normal (x * y)%float = true ->
  Rabs (float_value (x * y)%float - float_value x * float_value y)
  <= eps64 * Rabs (float_value (x * y)%float).
Proof.
  intros Hn. destruct (normal_finite _ Hn) as (s & m & e & Hz & Hm).
  unfold float_value. rewrite Hz.
  rewrite mul_spec in Hz.
  eapply Rle_trans; [apply (SFmul_close _ _ _ _ _ Hz) |].
  now apply ulp_relative.
Qed.

Lemma div_close (x y : float) :
  is_normal (x / y)%float = true ->
  float_value y <> 0
  /\ Rabs (float_value (x / y)%float - float_value x / float_value y)
     <= eps64 * Rabs (float_value (x / y)%float).
Proof.
  intros Hn. destruct (normal_finite _ Hn) as (s & m & e & Hz & Hm).
  unfold float_value. rewrite Hz.
  rewrite div_spec in Hz.
  destruct (SFdiv_close _ _ _ _ _ Hz) as [Hy Hclose].
  split; [exact Hy |].
  eapply Rle_trans; [exact Hclose |].
  now apply ulp_relative.
Qed.

(** From an error relative to the result to a factor on the result. *)
Lemma relative_factor (t v : R) :
  Rabs (t - v) <= eps64 * Rabs t ->
  exists d, Rabs d <= eps64 /\ v = t * (1 + d).
Proof.
  intros Hclose.
  assert (Heps : 0 < eps64 < 1) by (unfold eps64; lra).
  destruct (Req_dec t 0) as [-> | Ht].
  - exists 0. rewrite Rabs_R0 in *. split; [lra |].
    rewrite Rmult_0_r in Hclose. unfold Rminus in Hclose.
    rewrite Rplus_0_l, Rabs_Ropp in Hclose.
    assert (Rabs v = 0) by (pose proof (Rabs_pos v); lra).
    destruct (Req_dec v 0) as [-> | Hv]; [lra |].
    now apply Rabs_no_R0 in Hv.
  - exists ((v - t) / t). split; [| field; exact Ht].
    unfold Rdiv. rewrite Rabs_mult, Rabs_inv.
    assert (Hat : 0 < Rabs t) by now apply Rabs_pos_lt.
    apply Rmult_le_reg_r with (Rabs t); [exact Hat |].
    rewrite Rmult_assoc, Rinv_l by lra.
    rewrite Rmult_1_r, <- Rabs_Ropp.
    now replace (- (v - t)) with (t - v) by lra.
Qed.

Lemma Rabs_le_between (a b : R) : Rabs a <= b -> - b <= a <= b.
Proof.
  intros Hab. pose proof (Rle_abs a) as H1. pose proof (Rle_abs (- a)) as H2.
  rewrite Rabs_Ropp in H2. lra.
Qed.

Lemma two_factors (d1 d2 : R) :
  Rabs d1 <= eps64 -> Rabs d2 <= eps64 ->
  1 - 3 / 10 ^ 15 <= (1 + d1) * (1 + d2) <= 1 + 3 / 10 ^ 15.
Proof.
  intros H1 H2.
  assert (Heps : 0 < eps64 <= 1 / 10 ^ 15) by (unfold eps64; lra).
  apply Rabs_le_between in H1, H2. nra.
Qed.

Lemma four_factors (d1 d2 d3 d4 : R) :
  Rabs d1 <= eps64 -> Rabs d2 <= eps64 ->
  Rabs d3 <= eps64 -> Rabs d4 <= eps64 ->
  1 - 1 / 10 ^ 14 <= (1 + d1) * (1 + d2) * ((1 + d3) * (1 + d4))
                  <= 1 + 1 / 10 ^ 14.
Proof.
  intros H1 H2 H3 H4.
  pose proof (two_factors d1 d2 H1 H2) as Ha.
  pose proof (two_factors d3 d4 H3 H4) as Hb.
  nra.
Qed.

Lemma close_of_factor (t p : R) :
  1 - 1 / 10 ^ 14 <= p <= 1 + 1 / 10 ^ 14 ->
  Rabs (t - t * p) <= 2 / 10 ^ 14 * Rabs (t * p).
Proof.
  intros Hp.
  replace (t - t * p) with (t * (1 - p)) by ring.
  rewrite !Rabs_mult.
  pose proof (Rabs_pos t) as Ht.
  assert (H1 : Rabs (1 - p) <= 1 / 10 ^ 14) by (apply Rabs_le; lra).
  rewrite (Rabs_pos_eq p) by lra.
  nra.
Qed.

Local Close Scope R_scope.
Local Open Scope Z_scope.

Lemma digits2_pos_upper (p : positive) : Zpos p < 2 ^ Zpos (digits2_pos p).
Proof.
  induction p as [p IH | p IH |]; cbn [digits2_pos].
  - rewrite Pos2Z.inj_succ, Z.pow_succ_r by lia. lia.
  - rewrite Pos2Z.inj_succ, Z.pow_succ_r by lia. lia.
  - simpl. lia.
Qed.

Lemma digits2_pos_unique (p : positive) (k : Z) :
  2 ^ (k - 1) <= Zpos p < 2 ^ k -> Zpos (digits2_pos p) = k.
Proof.
  intros [Hlo Hhi].
  pose proof (digits2_pos_lower p) as Hl.
  pose proof (digits2_pos_upper p) as Hu.
  set (d := Zpos (digits2_pos p)) in *.
  assert (Hd : 0 < d) by (unfold d; lia).
  assert (Hk : 0 < k).
  { destruct (Z.lt_ge_cases 0 k) as [Hk | Hk]; [exact Hk |].
    exfalso. destruct (Z.eq_dec k 0) as [-> | Hk0].
    - simpl in Hhi. lia.
    - rewrite (Z.pow_neg_r 2 k) in Hhi by lia. lia. }
  destruct (Z.lt_trichotomy d k) as [Hlt | [Heq | Hgt]]; [| exact Heq |].
  - exfalso. assert (2 ^ d <= 2 ^ (k - 1)) by (apply Z.pow_le_mono_r; lia).
    lia.
  - exfalso. assert (2 ^ k <= 2 ^ (d - 1)) by (apply Z.pow_le_mono_r; lia).
    lia.
Qed.

Lemma iter_xO (k p : positive) : Zpos (Pos.iter xO p k) = Zpos p * 2 ^ Zpos k.
Proof.
  revert p. induction k as [k IH | k IH |]; intros p; cbn [Pos.iter].
  - rewrite Pos2Z.inj_xO, IH, IH.
    replace (Z.pos k~1) with (1 + Z.pos k + Z.pos k) by lia.
    rewrite !Z.pow_add_r by lia. change (2 ^ 1) with 2. ring.
  - rewrite IH, IH.
    replace (Z.pos k~0) with (Z.pos k + Z.pos k) by lia.
    rewrite !Z.pow_add_r by lia. ring.
  - rewrite Pos2Z.inj_xO. change (2 ^ 1) with 2. ring.
Qed.

Lemma fexp_normal (k : Z) : -1021 <= k -> fexp prec emax k = k - 53.
Proof. intros Hk. unfold fexp, emin, prec, emax. lia. Qed.

(** Rounding a mantissa of at least 53 bits, in the normal range, gives a
    valid normal float. *)
Lemma binary_round_aux_valid (sx : bool) (p : positive) (ex : Z)
    (lx : location) :
  53 <= Zpos (digits2_pos p) ->
  -1021 <= Zpos (digits2_pos p) + ex ->
  match binary_round_aux prec emax sx (Zpos p) ex lx with
  | S754_finite s m e =>
      valid_binary (S754_finite s m e) = true
      /\ 4503599627370496 <= Zpos m
  | S754_infinity _ => True
  | _ => False
  end.
Proof.
  intros Hd Hrange. unfold binary_round_aux, shr_fexp.
  cbn [Zdigits2]. rewrite (fexp_normal _ Hrange).
  set (d := Zpos (digits2_pos p)) in *.
  destruct (shr (shr_record_of_loc (Z.pos p) lx) ex (d + ex - 53 - ex))
    as [mrs1 e1] eqn:H1.
  apply shr_spec in H1; [| rewrite shr_record_of_loc_m; lia].
  rewrite shr_record_of_loc_m in H1. destruct H1 as [He1 Hq1].
  rewrite Z.max_r in He1, Hq1 by lia.
  replace (d + ex - 53 - ex) with (d - 53) in * by lia.
  pose proof (digits2_pos_lower p) as Hlo.
  pose proof (digits2_pos_upper p) as Hhi. fold d in Hlo, Hhi.
  assert (Hq1lo : 4503599627370496 <= shr_m mrs1).
  { rewrite Hq1. apply Z.div_le_lower_bound; [apply Z.pow_pos_nonneg; lia |].
    change 4503599627370496 with (2 ^ 52).
    rewrite <- Z.pow_add_r by lia.
    now replace (d - 53 + 52) with (d - 1) by lia. }
  assert (Hq1hi : shr_m mrs1 < 9007199254740992).
  { rewrite Hq1. apply Z.div_lt_upper_bound; [apply Z.pow_pos_nonneg; lia |].
    change 9007199254740992 with (2 ^ 53).
    rewrite <- Z.pow_add_r by lia.
    now replace (d - 53 + 53) with d by lia. }
  set (r1 := round_nearest_even (shr_m mrs1) (loc_of_shr_record mrs1)).
  pose proof (round_nearest_even_bound (shr_m mrs1) (loc_of_shr_record mrs1))
    as Hr1. fold r1 in Hr1.
  destruct r1 as [| pr | pr] eqn:Er1; try lia.
  cbn [Zdigits2].
  destruct (Z.eq_dec (Zpos pr) 9007199254740992) as [Heq | Hneq].
  - assert (Hdig : Zpos (digits2_pos pr) = 54).
    { apply digits2_pos_unique. rewrite Heq. simpl. lia. }
    rewrite Hdig, fexp_normal by lia.
    destruct (shr (shr_record_of_loc (Z.pos pr) loc_Exact) e1
                (54 + e1 - 53 - e1)) as [mrs2 e2] eqn:H2.
    apply shr_spec in H2; [| rewrite shr_record_of_loc_m; lia].
    rewrite shr_record_of_loc_m in H2. destruct H2 as [He2 Hm2].
    replace (54 + e1 - 53 - e1) with 1 in * by lia.
    rewrite Heq in Hm2. change (9007199254740992 / 2 ^ Z.max 0 1)
      with 4503599627370496 in Hm2.
    rewrite Hm2.
    destruct (e2 <=? emax - prec) eqn:Hle; [| exact I].
    split; [| lia].
    cbn [SpecFloat.valid_binary]. unfold SpecFloat.bounded, SpecFloat.canonical_mantissa.
    rewrite Hle, andb_true_r.
    change (Z.pos (digits2_pos 4503599627370496)) with 53.
    rewrite fexp_normal by lia. apply Z.eqb_eq. lia.
  - assert (Hdig : Zpos (digits2_pos pr) = 53).
    { apply digits2_pos_unique. simpl. lia. }
    rewrite Hdig, fexp_normal by lia.
    destruct (shr (shr_record_of_loc (Z.pos pr) loc_Exact) e1
                (53 + e1 - 53 - e1)) as [mrs2 e2] eqn:H2.
    apply shr_spec in H2; [| rewrite shr_record_of_loc_m; lia].
    rewrite shr_record_of_loc_m in H2. destruct H2 as [He2 Hm2].
    replace (53 + e1 - 53 - e1) with 0 in * by lia.
    change (2 ^ Z.max 0 0) with 1 in Hm2. rewrite Z.div_1_r in Hm2.
    rewrite Hm2.
    destruct (e2 <=? emax - prec) eqn:Hle; [| exact I].
    split; [| lia].
    cbn [SpecFloat.valid_binary]. unfold SpecFloat.bounded, SpecFloat.canonical_mantissa.
    rewrite Hle, andb_true_r, Hdig.
    rewrite fexp_normal by lia. apply Z.eqb_eq. simpl in He2. lia.
Qed.

Lemma shl_align_int (p mz : positive) (ez : Z) :
  shl_align p 0 (fexp prec emax (Zpos (digits2_pos p) + 0)) = (mz, ez) ->
  53 <= Zpos (digits2_pos mz)
  /\ -1021 <= Zpos (digits2_pos mz) + ez
  /\ ez <= 0
  /\ Zpos mz = Zpos p * 2 ^ (- ez).
Proof.
  pose proof (digits2_pos_lower p) as Hlo.
  pose proof (digits2_pos_upper p) as Hhi.
  set (d := Zpos (digits2_pos p)) in *.
  assert (Hd : 0 < d) by (unfold d; lia).
  rewrite fexp_normal by lia. unfold shl_align.
  destruct (d + 0 - 53 - 0) as [| k | k] eqn:Hk.
  - intros Heq; apply pair_equal_spec in Heq; destruct Heq as [<- <-]. fold d. repeat split; try lia.
  - intros Heq; apply pair_equal_spec in Heq; destruct Heq as [<- <-]. fold d. repeat split; try lia.
  - intros Heq; apply pair_equal_spec in Heq; destruct Heq as [<- <-].
    assert (Hmz : Zpos (Pos.iter xO p k) = Zpos p * 2 ^ Zpos k)
      by apply iter_xO.
    assert (Hk' : Zpos k = 53 - d) by lia.
    assert (Hdig : Zpos (digits2_pos (Pos.iter xO p k)) = 53).
    { apply digits2_pos_unique. rewrite Hmz, Hk'.
      assert (Hp : 0 < 2 ^ (53 - d)) by (apply Z.pow_pos_nonneg; lia).
      change (2 ^ (53 - 1)) with (2 ^ 52). split.
      - replace 52 with (d - 1 + (53 - d)) by lia.
        rewrite Z.pow_add_r by lia. nia.
      - replace 53 with (d + (53 - d)) at 2 by lia.
        rewrite Z.pow_add_r by lia. nia. }
    rewrite Hdig. repeat split; try lia.
    rewrite Hmz. f_equal. f_equal. lia.
Qed.

Local Close Scope Z_scope.
Local Open Scope R_scope.

(** [float(n)] for an int is within one unit of the last place of it. *)
Lemma binary_round_int_close (s : bool) (p : positive) :
  match binary_round prec emax s p 0 with
  | S754_finite s' m e =>
      valid_binary (S754_finite s' m e) = true
      /\ Rabs (SF2R (S754_finite s' m e) - sign_R s * IZR (Zpos p))
         <= eps64 * Rabs (SF2R (S754_finite s' m e))
  | S754_infinity _ => True
  | _ => False
  end.
Proof.
  unfold binary_round.
  destruct (shl_align p 0 (fexp prec emax (Z.pos (digits2_pos p) + 0)))
    as [mz ez] eqn:Halign.
  apply shl_align_int in Halign.
  destruct Halign as (Hdig & Hrange & Hez & Hmz).
  pose proof (binary_round_aux_valid s mz ez loc_Exact Hdig Hrange) as Hvalid.
  destruct (binary_round_aux prec emax s (Z.pos mz) ez loc_Exact)
    as [s' | s' | | s' m e] eqn:Hround; try exact Hvalid.
  destruct Hvalid as [Hval Hm]. split; [exact Hval |].
  apply binary_round_aux_bound in Hround; [| lia].
  destruct Hround as (-> & He & Hlo & Hhi).
  destruct (scaled_bounds m _ _ e He Hlo Hhi) as [Hlo' Hhi'].
  assert (Hval_p : IZR (Z.pos mz) * powerRZ 2 ez = IZR (Z.pos p)).
  { rewrite Hmz, mult_IZR, IZR_two_pow by lia.
    rewrite Rmult_assoc, <- powerRZ_add by lra.
    replace (- ez + ez)%Z with 0%Z by lia. simpl. ring. }
  eapply Rle_trans; [| now apply ulp_relative].
  cbn [SF2R].
  replace (sign_R s * IZR (Z.pos m) * powerRZ 2 e - sign_R s * IZR (Z.pos p))
    with (sign_R s * (IZR (Z.pos m) * powerRZ 2 e - IZR (Z.pos p))) by ring.
  rewrite Rabs_sign_R.
  pose proof (two_pow_pos e). pose proof (two_pow_pos ez).
  apply Rabs_le. split; lra.
Qed.

(** [float(n)] for an int that fits is [n] rounded: within one unit of
    the last place. *)
Lemma float_of_int_close (z : Z) (a : float) :
  float_of_int z = Return a ->
  Rabs (float_value a - IZR z) <= eps64 * Rabs (float_value a).
Proof.
  unfold float_of_int, binary_normalize.
  destruct z as [| p | p].
  - intros Heq.
    assert (Ea : a = SF2Prim (S754_zero false)) by congruence.
    rewrite Ea. unfold float_value.
    rewrite Prim2SF_SF2Prim by reflexivity. cbn [SF2R].
    rewrite Rminus_diag, Rabs_R0. lra.
  - pose proof (binary_round_int_close false p) as Hclose.
    destruct (binary_round prec emax false p 0) as [s | s | | s m e];
      try contradiction; try discriminate.
    intros Heq.
    assert (Ea : a = SF2Prim (S754_finite s m e)) by congruence.
    rewrite Ea. destruct Hclose as [Hvalid Hclose].
    unfold float_value. rewrite (Prim2SF_SF2Prim _ Hvalid).
    simpl sign_R in Hclose. now rewrite Rmult_1_l in Hclose.
  - pose proof (binary_round_int_close true p) as Hclose.
    destruct (binary_round prec emax true p 0) as [s | s | | s m e];
      try contradiction; try discriminate.
    intros Heq.
    assert (Ea : a = SF2Prim (S754_finite s m e)) by congruence.
    rewrite Ea. destruct Hclose as [Hvalid Hclose].
    unfold float_value. rewrite (Prim2SF_SF2Prim _ Hvalid).
    simpl sign_R in Hclose.
    replace (IZR (Z.neg p)) with (-1 * IZR (Z.pos p)); [exact Hclose |].
    change (Z.neg p) with (- Z.pos p)%Z. rewrite opp_IZR. ring.
Qed.

Lemma float_of_number_close (n : number) (a : float) :
  float_of_number n = Return a ->
  Rabs (float_value a - number_value n) <= eps64 * Rabs (float_value a).
Proof.
  destruct n as [z | f]; simpl.
  - apply float_of_int_close.
  - intros [= <-]. rewrite Rminus_diag, Rabs_R0.
    apply Rmult_le_pos; [unfold eps64; lra | apply Rabs_pos].
Qed.

Local Close Scope R_scope.


(** ** Uppercasing *)

Lemma upper_ascii_idempotent (c : ascii) :
  upper_ascii (upper_ascii c) = upper_ascii c.
Proof.
  destruct c as [b0 b1 b2 b3 b4 b5 b6 b7].
  destruct b0, b1, b2, b3, b4, b5, b6, b7; reflexivity.
Qed.

Lemma upper_idempotent (s : string) : upper (upper s) = upper s.
Proof.
  induction s as [| c rest IH]; simpl.
  - reflexivity.
  - now rewrite upper_ascii_idempotent, IH.
Qed.

(** ** Dictionaries *)

Section DictFacts.
Context {V : Type}.

Lemma dict_contains_true (d : pydict V) (k : string) :
  dict_contains d k = true <-> exists v, dict_get d k = Some v.
Proof.
  unfold dict_contains. destruct (dict_get d k) as [v |].
  - split; [eauto | reflexivity].
  - split; [discriminate | intros [v Hv]; discriminate].
Qed.

Lemma dict_contains_false (d : pydict V) (k : string) :
  dict_contains d k = false <-> dict_get d k = None.
Proof.
  unfold dict_contains. destruct (dict_get d k); split; congruence.
Qed.

Lemma dict_get_In (d : pydict V) (k : string) (v : V) :
  dict_get d k = Some v -> In (k, v) d.
Proof.
  induction d as [| [k' v'] rest IH]; simpl; [discriminate |].
  destruct (String.eqb_spec k' k) as [-> | _].
  - intros [= ->]. now left.
  - intros Hget. right. now apply IH.
Qed.
End DictFacts.

(** ** Positive rates are not zero *)

Lemma float_pos_not_zero (x : float) :
  (0 <? x)%float = true -> (x =? 0)%float = false.
Proof.
  rewrite FloatAxioms.ltb_spec, FloatAxioms.eqb_spec.
  destruct (Prim2SF x) as [s | s | | s m e]; cbn; try discriminate.
  all: now destruct s.
Qed.

Lemma rates_positive_Forall (R : pydict float) :
  Forall (fun kv => (0 <? snd kv)%float = true) R -> rates_positive R.
Proof.
  intros Hall k v Hget.
  apply dict_get_In in Hget.
  rewrite Forall_forall in Hall.
  exact (Hall (k, v) Hget).
Qed.

Lemma test_rates_positive : rates_positive test_rates.
Proof. apply rates_positive_Forall. repeat constructor. Qed.

Lemma FALLBACK_RATES_positive : rates_positive FALLBACK_RATES.
Proof. apply rates_positive_Forall. repeat constructor. Qed.

(** ** [float(amount)] *)

(** The coercion fails only on an int, and only with [OverflowError]. *)
Lemma float_of_number_raise (n : number) (e : exn) :
  float_of_number n = Raise e -> e = OverflowError /\ exists z, n = NumInt z.
Proof.
  destruct n as [z | f]; simpl; [| discriminate].
  unfold float_of_int.
  destruct (binary_normalize prec emax z 0 false); intros [= <-]; eauto.
Qed.

(** ** The branches of [convert] *)

Lemma convert_none (F T : string) (R : pydict float) :
  convert None F T R = Return 0%float.
Proof. reflexivity. Qed.

Lemma convert_same (n : number) (F T : string) (R : pydict float) :
  upper F = upper T -> convert (Some n) F T R = float_of_number n.
Proof.
  intros Heq. unfold convert. rewrite Heq.
  now rewrite String.eqb_refl.
Qed.

Lemma convert_missing (n : number) (F T : string) (R : pydict float) :
  upper F <> upper T ->
  dict_get R (upper F) = None \/ dict_get R (upper T) = None ->
  convert (Some n) F T R = Raise (ValueError "Unsupported currency").
Proof.
  intros Hne Habs. unfold convert.
  rewrite (proj2 (String.eqb_neq _ _) Hne).
  unfold dict_contains.
  destruct Habs as [-> | ->]; simpl; [reflexivity |].
  now destruct (dict_get R (upper F)).
Qed.

Lemma convert_present (n : number) (F T : string) (R : pydict float)
    (rf rt : float) :
  upper F <> upper T ->
  dict_get R (upper F) = Some rf ->
  dict_get R (upper T) = Some rt ->
  convert (Some n) F T R =
    (a <- float_of_number n ;;
     if (rf =? 0)%float then Raise ZeroDivisionError
     else Return (a / rf * rt)%float).
Proof.
  intros Hne HF HT. unfold convert.
  rewrite (proj2 (String.eqb_neq _ _) Hne).
  unfold dict_contains, dict_getitem, truediv.
  rewrite HF, HT. cbn [negb orb].
  destruct (float_of_number n) as [a | e]; cbn [bind]; [| reflexivity].
  now destruct (rf =? 0)%float.
Qed.

(** [convert] sees its amount only through [float(amount)]. *)
Lemma convert_coerced (n : number) (a : float) (F T : string)
    (R : pydict float) :
  float_of_number n = Return a ->
  convert (Some n) F T R = convert (Some (NumFloat a)) F T R.
Proof. intros Ha. unfold convert. now rewrite Ha. Qed.

(** ** [convert] at binary64 *)



(** A zero rate for the source currency is the one way the division fails. *)
Lemma convert_zero_rate (a : float) (F T : string) (R : pydict float)
    (rf rt : float) :
  upper F <> upper T ->
  dict_get R (upper F) = Some rf ->
  dict_get R (upper T) = Some rt ->
  (rf =? 0)%float = true ->
  convert (Some (NumFloat a)) F T R = Raise ZeroDivisionError.
Proof.
  intros Hne HF HT Hz.
  rewrite (convert_present (NumFloat a) F T R rf rt Hne HF HT).
  simpl. now rewrite Hz.
Qed.

(** At an int too large for a float the identity case raises, and at an
    int above [2 ^ 53] it returns a neighbour: the amount does not always
    come back unchanged. *)
Lemma convert_identity_overflow :
  convert (Some (NumInt (2 ^ 1024))) "USD" "USD" [("USD", 1.0%float)]
  = Raise OverflowError
  /\ convert (Some (NumInt (2 ^ 53 + 1))) "USD" "USD" [("USD", 1.0%float)]
     = Return 9007199254740992%float
  /\ ~ (forall (n : number) (C : string) (R : pydict float),
          exists x, convert (Some n) C C R = Return x).
Proof.
  split; [vm_compute; reflexivity |].
  split; [vm_compute; reflexivity |].
  intros Hall.
  destruct (Hall (NumInt (2 ^ 1024)) "USD" [("USD", 1.0%float)]) as [x Hx].
  vm_compute in Hx. discriminate Hx.
Qed.

(** C2: when the two codes are equal after uppercasing, [convert] returns
    [float(amount)] whatever the table holds, so the table is not read: a
    float comes back as it is, an int comes back rounded to binary64
    (within one unit of the last place), and the only failure is the
    [OverflowError] of an int that [float] cannot take. *)
Theorem convert_identity (n : number) (F T : string) (R : pydict float) :
  upper F = upper T ->
  convert (Some n) F T R = float_of_number n
  /\ (forall R' : pydict float,
        convert (Some n) F T R' = convert (Some n) F T R)
  /\ (forall x, n = NumFloat x -> convert (Some n) F T R = Return x)
  /\ (forall x, convert (Some n) F T R = Return x ->
        (Rabs (float_value x - number_value n)
         <= eps64 * Rabs (float_value x))%R)
  /\ (forall e, convert (Some n) F T R = Raise e ->
        e = OverflowError /\ exists z, n = NumInt z).
Proof.
  intros Heq. rewrite (convert_same n F T R Heq).
  split; [reflexivity |].
  split; [intros R'; now rewrite (convert_same n F T R' Heq) |].
  split; [now intros x -> |].
  split.
  - intros x Hx. now apply float_of_number_close.
  - intros e He. now apply float_of_number_raise in He.
Qed.

Lemma convert_identity_witness :
  convert (Some (NumInt 50)) "xyz" "XYZ" test_rates
  = float_of_number (NumInt 50).
Proof.
  apply (proj1 (convert_identity (NumInt 50) "xyz" "XYZ" test_rates
                  eq_refl)).
Defined.




(** C8: a null amount gives [0.0] before any code is looked at: no
    uppercasing result, identity test or table lookup can make it fail. *)
Theorem convert_null_amount (F T : string) (R : pydict float) :
  convert None F T R = Return 0%float.
Proof. exact (convert_none F T R). Qed.

(** C9: codes are uppercased before any comparison or lookup, so both
    [convert] and [get_rates] give the same outcome on a code and on its
    uppercase form. *)
Theorem codes_case_insensitive :
  (forall (a : option number) (x y : string) (R : pydict float),
      convert a x y R = convert a (upper x) (upper y) R)
  /\ (forall (rt : runtime) (b : string),
        get_rates rt b = get_rates rt (upper b)).
Proof.
  split.
  - intros a x y R. unfold convert. now rewrite !upper_idempotent.
  - intros rt b. unfold get_rates. now rewrite upper_idempotent.
Qed.

(** ** [sorted] *)

Lemma insert_sorted_perm (x : string) (l : list string) :
  Permutation (insert_sorted x l) (x :: l).
Proof.
  induction l as [| y rest IH]; simpl.
  - apply Permutation_refl.
  - destruct (String.leb x y).
    + apply Permutation_refl.
    + eapply perm_trans; [apply perm_skip, IH | apply perm_swap].
Qed.

Lemma sorted_perm (l : list string) : Permutation (sorted l) l.
Proof.
  induction l as [| x rest IH]; simpl.
  - apply perm_nil.
  - eapply perm_trans; [apply insert_sorted_perm | now apply perm_skip].
Qed.

Lemma insert_sorted_hd (x y : string) (l : list string) :
  str_le y x -> HdRel str_le y l -> HdRel str_le y (insert_sorted x l).
Proof.
  intros Hyx Hhd. destruct l as [| z rest]; simpl.
  - now constructor.
  - destruct (String.leb x z); constructor; [exact Hyx |].
    now inversion Hhd.
Qed.

Lemma insert_sorted_Sorted (x : string) (l : list string) :
  Sorted str_le l -> Sorted str_le (insert_sorted x l).
Proof.
  induction 1 as [| y rest Hsorted IH Hhd]; simpl.
  - repeat constructor.
  - destruct (String.leb x y) eqn:Hxy.
    + constructor; [now constructor | now constructor].
    + constructor; [exact IH |].
      apply insert_sorted_hd; [| exact Hhd].
      destruct (String.leb_total x y) as [Hle | Hle]; [congruence | exact Hle].
Qed.

Lemma sorted_Sorted (l : list string) : Sorted str_le (sorted l).
Proof.
  induction l as [| x rest IH]; simpl.
  - constructor.
  - now apply insert_sorted_Sorted.
Qed.

(** C7: [supported_currencies] is a rearrangement of the keys of
    [FALLBACK_RATES], in strictly ascending order, hence without
    duplicates, and has seven entries. *)
Theorem supported_currencies_sorted_keys :
  Permutation supported_currencies (dict_keys FALLBACK_RATES)
  /\ Sorted str_le supported_currencies
  /\ StronglySorted str_lt supported_currencies
  /\ NoDup supported_currencies
  /\ List.length supported_currencies = 7%nat.
Proof.
  split; [apply sorted_perm |].
  split; [apply sorted_Sorted |].
  rewrite supported_currencies_value.
  split; [repeat constructor |].
  split; [| reflexivity].
  repeat constructor; simpl; intuition discriminate.
Qed.

(** ** The fallback path of [get_rates] *)

Ltac fallback_key H :=
  apply dict_get_In in H; simpl in H;
  repeat (destruct H as [H | H]; [injection H as <- <- |]);
  [.. | contradiction].

Lemma fallback_rates_rebased (base : string) :
  exists ref,
    reference_rate base = Some ref
    /\ fallback_rates base = Return (rebased ref)
    /\ (dict_contains FALLBACK_RATES base = true ->
        dict_get (rebased ref) base = Some 1%float)
    /\ Forall (fun kv => (0 <? snd kv)%float = true) (rebased ref).
Proof.
  destruct (dict_get FALLBACK_RATES base) as [r |] eqn:Hget.
  - exists r. fallback_key Hget.
    all: repeat split; try reflexivity.
    all: repeat constructor.
  - exists 1%float.
    unfold reference_rate, fallback_rates, dict_contains.
    rewrite Hget.
    repeat split; try reflexivity; try discriminate.
    repeat constructor.
Qed.

Lemma get_rates_on_fallback (rt : runtime) (base : string) :
  live_attempt rt (upper base) = None ->
  get_rates rt base = fallback_rates (upper base).
Proof. intros Hlive. unfold get_rates. now rewrite Hlive. Qed.

Lemma fallback_key_is_upper (base : string) :
  dict_contains FALLBACK_RATES base = true -> upper base = base.
Proof.
  intros Hin. apply dict_contains_true in Hin. destruct Hin as [v Hget].
  fallback_key Hget; reflexivity.
Qed.

(** C4: when the live retrieval gives no table, [get_rates] returns every
    fallback entry divided by one reference rate: the fallback rate of the
    uppercased base when that is a key, the rate of USD otherwise.  A base
    that is a key is mapped to [1.0]. *)
Theorem get_rates_fallback_table (rt : runtime) (base : string) :
  live_attempt rt (upper base) = None ->
  exists ref,
    reference_rate (upper base) = Some ref
    /\ get_rates rt base = Return (rebased ref)
    /\ (dict_contains FALLBACK_RATES (upper base) = true ->
        dict_get (rebased ref) (upper base) = Some 1%float)
    /\ (dict_contains FALLBACK_RATES base = true ->
        dict_get (rebased ref) base = Some 1%float).
Proof.
  intros Hlive. rewrite (get_rates_on_fallback rt base Hlive).
  destruct (fallback_rates_rebased (upper base)) as (ref & Href & Htab & Hone & _).
  exists ref. repeat split; try assumption.
  intros Hin. pose proof (fallback_key_is_upper base Hin) as Hup.
  rewrite Hup in Hone. now apply Hone.
Qed.

Lemma get_rates_fallback_table_witness :
  exists ref,
    reference_rate (upper "eur") = Some ref
    /\ get_rates offline "eur" = Return (rebased ref)
    /\ (dict_contains FALLBACK_RATES (upper "eur") = true ->
        dict_get (rebased ref) (upper "eur") = Some 1%float)
    /\ (dict_contains FALLBACK_RATES "eur" = true ->
        dict_get (rebased ref) "eur" = Some 1%float).
Proof.
  apply (get_rates_fallback_table offline "eur").
  reflexivity.
Defined.

(** C10: whatever the base, the table of the fallback path has the seven
    keys USD, EUR, GBP, JPY, INR, CAD, AUD and only positive values. *)
Theorem get_rates_fallback_keys_positive (rt : runtime) (base : string) :
  live_attempt rt (upper base) = None ->
  exists table,
    get_rates rt base = Return table
    /\ dict_keys table = ["USD"; "EUR"; "GBP"; "JPY"; "INR"; "CAD"; "AUD"]
    /\ Forall (fun kv => (0 <? snd kv)%float = true) table.
Proof.
  intros Hlive. rewrite (get_rates_on_fallback rt base Hlive).
  destruct (fallback_rates_rebased (upper base)) as (ref & _ & Htab & _ & Hpos).
  exists (rebased ref). repeat split; assumption || reflexivity.
Qed.

Lemma get_rates_fallback_keys_positive_witness :
  exists table,
    get_rates offline "zzz" = Return table
    /\ dict_keys table = ["USD"; "EUR"; "GBP"; "JPY"; "INR"; "CAD"; "AUD"]
    /\ Forall (fun kv => (0 <? snd kv)%float = true) table.
Proof.
  apply (get_rates_fallback_keys_positive offline "zzz").
  reflexivity.
Defined.

(** ** The live path of [get_rates] *)

Lemma live_failure_no_table (rt : runtime) (base : string) :
  live_failure rt base -> live_attempt rt base = None.
Proof.
  intros Hfail. unfold live_attempt.
  destruct Hfail as
    [ Hreq
    | get e Hreq Hget
    | get resp Hreq Hget Hst
    | get resp e Hreq Hget Hst Hjson
    | get resp data Hreq Hget Hst Hjson Hobj
    | get resp items Hreq Hget Hst Hjson Hrates
    | get resp items Hreq Hget Hst Hjson Hrates
    | get resp items entries e Hreq Hget Hst Hjson Hrates Htab ];
    rewrite Hreq; try reflexivity;
    unfold live_rates; rewrite Hget; simpl; try reflexivity.
  - now rewrite (proj2 (Z.eqb_neq _ _) Hst).
  - now rewrite Hst, Hjson.
  - rewrite Hst, Hjson. simpl.
    destruct data; try reflexivity. now destruct (Hobj items).
  - rewrite Hst, Hjson. simpl.
    destruct (dict_get items "rates") as [v |]; [| reflexivity].
    destruct v; try reflexivity. now destruct (Hrates items0).
  - now rewrite Hst, Hjson; simpl; rewrite Hrates.
  - rewrite Hst, Hjson. simpl. rewrite Hrates.
    destruct entries as [| entry entries]; [reflexivity |].
    unfold dict_truthy. now rewrite Htab.
Qed.

Lemma no_table_live_failure (rt : runtime) (base : string) :
  live_attempt rt base = None -> live_failure rt base.
Proof.
  unfold live_attempt.
  destruct (requests rt) as [get |] eqn:Hreq;
    [| intros _; now apply client_absent].
  unfold live_rates.
  destruct (get (rates_url base) 5%Z) as [resp | e] eqn:Hget; simpl;
    [| intros _; now apply (transport_error rt base get e)].
  destruct (Z.eqb_spec (status_code resp) 200) as [Hst | Hst];
    [| intros _; now apply (bad_status rt base get resp)].
  destruct (json resp) as [data | e] eqn:Hjson; simpl;
    [| intros _; now apply (malformed_body rt base get resp e)].
  destruct data as [| b | z | f | s | elems | items]; simpl;
    try (intros _; apply (payload_not_object rt base get resp _ Hreq Hget Hst Hjson);
         intros items; discriminate).
  destruct (dict_get items "rates") as [v |] eqn:Hrates;
    [| intros _; apply (rates_missing rt base get resp items Hreq Hget Hst Hjson);
       intros entries; rewrite Hrates; discriminate].
  destruct v as [| b | z | f | s | elems | entries];
    try (intros _; apply (rates_missing rt base get resp items Hreq Hget Hst Hjson);
         intros entries; rewrite Hrates; discriminate).
  destruct entries as [| entry entries];
    [intros _; now apply (rates_empty rt base get resp items) |].
  unfold dict_truthy.
  destruct (live_table rt (entry :: entries) []) as [table | e] eqn:Htab;
    [intros Hnone; discriminate Hnone |].
  intros _.
  now apply (rate_not_numeric rt base get resp items (entry :: entries) e).
Qed.

(** Division by a non-zero rate never raises: the fallback path is total. *)
Lemma fallback_rates_returns (base : string) :
  exists table, fallback_rates base = Return table.
Proof.
  destruct (fallback_rates_rebased base) as (ref & _ & Htab & _).
  now exists (rebased ref).
Qed.

(** C6: [get_rates] returns a table for every runtime and every base, and
    whenever the live retrieval fails (no client library, transport error,
    status other than 200, undecodable or ill-shaped payload, missing or
    empty rates, a rate that is not a number) the table is the one of the
    fallback path. *)
Theorem get_rates_never_raises (rt : runtime) (base : string) :
  (exists table, get_rates rt base = Return table)
  /\ (live_failure rt (upper base) ->
      exists table,
        fallback_rates (upper base) = Return table
        /\ get_rates rt base = Return table).
Proof.
  split.
  - unfold get_rates.
    destruct (live_attempt rt (upper base)) as [table |].
    + now exists table.
    + apply fallback_rates_returns.
  - intros Hfail. apply live_failure_no_table in Hfail.
    rewrite (get_rates_on_fallback rt base Hfail).
    destruct (fallback_rates_returns (upper base)) as [table Htab].
    now exists table.
Qed.

Lemma get_rates_never_raises_witness :
  exists table,
    fallback_rates (upper "gbp") = Return table
    /\ get_rates server_error "gbp" = Return table.
Proof.
  apply (get_rates_never_raises server_error "gbp").
  eapply bad_status.
  - reflexivity.
  - reflexivity.
  - simpl. discriminate.
Defined.

Local Open Scope R_scope.

(** The chain of the round trip over the reals: four results, each
    within [eps64] of the exact value of its operation. *)
Lemma round_trip_chain (A RX RY t1 t2 t3 t4 : R) :
  RX <> 0 -> RY <> 0 ->
  Rabs (t1 - A / RX) <= eps64 * Rabs t1 ->
  Rabs (t2 - t1 * RY) <= eps64 * Rabs t2 ->
  Rabs (t3 - t2 / RY) <= eps64 * Rabs t3 ->
  Rabs (t4 - t3 * RX) <= eps64 * Rabs t4 ->
  Rabs (t4 - A) <= 2 / 10 ^ 14 * Rabs A.
Proof.
  intros HRX HRY H1 H2 H3 H4.
  destruct (relative_factor _ _ H1) as (d1 & Hd1 & E1).
  destruct (relative_factor _ _ H2) as (d2 & Hd2 & E2).
  destruct (relative_factor _ _ H3) as (d3 & Hd3 & E3).
  destruct (relative_factor _ _ H4) as (d4 & Hd4 & E4).
  assert (EA : A = RX * (t1 * (1 + d1))) by (rewrite <- E1; now field).
  assert (Et2 : t2 = RY * (t3 * (1 + d3))) by (rewrite <- E3; now field).
  assert (Et1 : t1 = t3 * (1 + d3) * (1 + d2)).
  { apply Rmult_eq_reg_r with RY; [| exact HRY].
    rewrite E2, Et2. ring. }
  assert (Eprod : A = t4 * ((1 + d1) * (1 + d2) * ((1 + d3) * (1 + d4)))).
  { rewrite EA, Et1.
    replace (RX * (t3 * (1 + d3) * (1 + d2) * (1 + d1)))
      with (t3 * RX * ((1 + d3) * (1 + d2) * (1 + d1))) by ring.
    rewrite E4. ring. }
  rewrite Eprod.
  apply close_of_factor. now apply four_factors.
Qed.

(** From closeness to [float(a)] to closeness to [a]. *)
Lemma shift_reference (t A V : R) :
  Rabs (t - A) <= 2 / 10 ^ 14 * Rabs A ->
  Rabs (A - V) <= eps64 * Rabs A ->
  Rabs (t - V) <= 3 / 10 ^ 14 * Rabs V.
Proof.
  intros HtA HAV.
  assert (Heps : 0 < eps64 <= 1 / 10 ^ 15) by (unfold eps64; lra).
  pose proof (Rabs_triang (t - A) (A - V)) as Htri.
  replace (t - A + (A - V)) with (t - V) in Htri by ring.
  pose proof (Rabs_triang_inv A V) as Hinv.
  pose proof (Rabs_pos A) as HA. pose proof (Rabs_pos V) as HV.
  nra.
Qed.

Lemma one_factor (d : R) :
  Rabs d <= eps64 -> 1 - 1 / 10 ^ 15 <= 1 + d <= 1 + 1 / 10 ^ 15.
Proof.
  intros Hd. assert (Heps : 0 < eps64 <= 1 / 10 ^ 15) by (unfold eps64; lra).
  apply Rabs_le_between in Hd. lra.
Qed.

Lemma three_factors (d1 d2 d3 : R) :
  Rabs d1 <= eps64 -> Rabs d2 <= eps64 -> Rabs d3 <= eps64 ->
  1 - 1 / 10 ^ 14 <= (1 + d1) * (1 + d2) * (1 + d3) <= 1 + 1 / 10 ^ 14.
Proof.
  intros H1 H2 H3.
  pose proof (two_factors d1 d2 H1 H2) as Ha.
  pose proof (one_factor d3 H3) as Hb.
  nra.
Qed.

(** Two results that agree up to factors near one are near each other. *)
Lemma ratio_close (t s P Q : R) :
  1 - 1 / 10 ^ 14 <= P <= 1 + 1 / 10 ^ 14 ->
  1 - 1 / 10 ^ 14 <= Q <= 1 + 1 / 10 ^ 14 ->
  t * P = s * Q ->
  Rabs (t - s) <= 3 / 10 ^ 14 * Rabs s.
Proof.
  intros HP HQ Heq.
  assert (HP0 : P <> 0) by lra.
  assert (Et : t = s * (Q / P)).
  { apply Rmult_eq_reg_r with P; [| exact HP0]. rewrite Heq. now field. }
  rewrite Et.
  replace (s * (Q / P) - s) with (s * (Q / P - 1)) by ring.
  rewrite Rabs_mult, (Rmult_comm (Rabs s)).
  apply Rmult_le_compat_r; [apply Rabs_pos |].
  set (r := Q / P).
  assert (Er : r * P = Q) by (unfold r; now field).
  apply Rabs_le. split; nra.
Qed.

Local Close Scope R_scope.

(** ** The round trip *)

Lemma round_trip_same (n : number) (X Y : string) (rates : pydict float) :
  upper X = upper Y -> round_trip n X Y rates = float_of_number n.
Proof.
  intros Heq. unfold round_trip.
  rewrite (convert_same n X Y rates Heq).
  destruct (float_of_number n) as [a | e]; cbn [bind]; [| reflexivity].
  now apply convert_same.
Qed.

Lemma round_trip_distinct (n : number) (a : float) (X Y : string)
    (rates : pydict float) (rx ry : float) :
  float_of_number n = Return a ->
  upper X <> upper Y ->
  dict_get rates (upper X) = Some rx ->
  dict_get rates (upper Y) = Some ry ->
  (rx =? 0)%float = false ->
  (ry =? 0)%float = false ->
  round_trip n X Y rates = Return (a / rx * ry / ry * rx)%float.
Proof.
  intros Ha Hne HX HY Hzx Hzy. unfold round_trip.
  rewrite (convert_present n X Y rates rx ry Hne HX HY), Ha.
  cbn [bind]. rewrite Hzx. cbn [bind].
  rewrite (convert_present _ Y X rates ry rx (not_eq_sym Hne) HY HX).
  cbn [float_of_number bind]. now rewrite Hzy.
Qed.

(** A zero amount goes there and back as a zero, through positive finite
    rates. *)
Lemma round_trip_zero_value (a rx ry : float) :
  (a =? 0)%float = true ->
  (0 <? rx)%float = true -> (rx <? infinity)%float = true ->
  (0 <? ry)%float = true -> (ry <? infinity)%float = true ->
  float_value a = 0%R
  /\ float_value (a / rx * ry / ry * rx)%float = 0%R.
Proof.
  rewrite FloatAxioms.eqb_spec, !FloatAxioms.ltb_spec.
  unfold float_value.
  rewrite mul_spec, div_spec, mul_spec, div_spec.
  change (Prim2SF 0) with (S754_zero false).
  change (Prim2SF infinity) with (S754_infinity false).
  destruct (Prim2SF a) as [sa | sa | | sa ma ea];
    try (destruct sa; discriminate); try discriminate.
  intros _.
  destruct (Prim2SF rx) as [sx | sx | | sx mx ex];
    try (destruct sx; discriminate); try discriminate.
  destruct sx; [discriminate |]. intros _ _.
  destruct (Prim2SF ry) as [sy | sy | | sy my ey];
    try (destruct sy; discriminate); try discriminate.
  destruct sy; [discriminate |]. intros _ _.
  split; reflexivity.
Qed.

(** At binary64 the round trip is not within a relative tolerance of the
    amount for every input: 1e308 USD is more yen than binary64 can hold,
    the conversion returns an infinity, and the infinity does not come
    back. *)
Lemma round_trip_float_overflow :
  convert (Some (NumFloat 1e308%float)) "USD" "JPY" FALLBACK_RATES
  = Return infinity
  /\ round_trip (NumFloat 1e308%float) "USD" "JPY" FALLBACK_RATES
     = Return infinity
  /\ ~ (exists rel_tol : float,
          forall (R : pydict float) (X Y : string) (a : float),
            rates_positive R ->
            dict_contains R (upper X) = true ->
            dict_contains R (upper Y) = true ->
            exists back,
              round_trip (NumFloat a) X Y R = Return back
              /\ isclose back a rel_tol 0%float = Return true).
Proof.
  split; [vm_compute; reflexivity |].
  split; [vm_compute; reflexivity |].
  intros [rel_tol Hclose].
  destruct (Hclose FALLBACK_RATES "USD" "JPY" 1e308%float
              FALLBACK_RATES_positive eq_refl eq_refl)
    as (back & Hback & Hnear).
  vm_compute in Hback. injection Hback as <-.
  unfold isclose in Hnear.
  destruct ((rel_tol <? 0)%float || (0 <? 0)%float); [discriminate Hnear |].
  vm_compute in Hnear. discriminate Hnear.
Qed.

(** C5: over exact arithmetic the formula of the specification, applied
    there and back, returns the amount.  At binary64, with positive rates,
    both codes in the table and an amount that [float] accepts, the round
    trip returns [float(a)] when the two codes agree after uppercasing;
    for distinct codes it returns a value within relative [3e-14] of the
    amount, hence within the [1e-9] of the tests, as long as the amount
    is zero and the rates are finite, or none of the four intermediate
    results overflows or underflows (each is a normal number). *)
Theorem round_trip_within_tolerance :
  (forall a rx ry : R,
      rx <> 0%R -> ry <> 0%R ->
      exact_convert (exact_convert a rx ry) ry rx = a)
  /\ (forall (rates : pydict float) (X Y : string) (n : number)
             (a rx ry : float),
        rates_positive rates ->
        dict_get rates (upper X) = Some rx ->
        dict_get rates (upper Y) = Some ry ->
        float_of_number n = Return a ->
        upper X = upper Y
        \/ ((a =? 0)%float = true
            /\ (rx <? infinity)%float = true
            /\ (ry <? infinity)%float = true)
        \/ (is_normal (a / rx)%float = true
            /\ is_normal (a / rx * ry)%float = true
            /\ is_normal (a / rx * ry / ry)%float = true
            /\ is_normal (a / rx * ry / ry * rx)%float = true) ->
        exists back,
          round_trip n X Y rates = Return back
          /\ (upper X = upper Y -> back = a)
          /\ (Rabs (float_value back - number_value n)
              <= 3 / 10 ^ 14 * Rabs (number_value n))%R
          /\ (Rabs (float_value back - number_value n)
              <= 1 / 10 ^ 9 * Rabs (number_value n))%R).
Proof.
  split.
  - intros a rx ry Hrx Hry. unfold exact_convert. now field.
  - intros rates X Y n a rx ry Hpos HX HY Ha Hcase.
    pose proof (float_of_number_close n a Ha) as Hcoerce.
    assert (Hweaker : forall t : R,
               (Rabs (t - number_value n)
                <= 3 / 10 ^ 14 * Rabs (number_value n))%R ->
               (Rabs (t - number_value n)
                <= 1 / 10 ^ 9 * Rabs (number_value n))%R).
    { intros t Ht. eapply Rle_trans; [exact Ht |].
      apply Rmult_le_compat_r; [apply Rabs_pos | lra]. }
    destruct (String.eqb_spec (upper X) (upper Y)) as [Heq | Hne].
    + exists a. split; [| split; [reflexivity |]].
      * now rewrite (round_trip_same n X Y rates Heq).
      * assert (Hclose : (Rabs (float_value a - number_value n)
                          <= 3 / 10 ^ 14 * Rabs (number_value n))%R).
        { apply (shift_reference _ (float_value a)); [| exact Hcoerce].
          rewrite Rminus_diag, Rabs_R0.
          apply Rmult_le_pos; [lra | apply Rabs_pos]. }
        split; [exact Hclose | now apply Hweaker].
    + exists (a / rx * ry / ry * rx)%float.
      split; [| split; [contradiction |]].
      { apply (round_trip_distinct n a X Y rates rx ry Ha Hne HX HY).
        - apply float_pos_not_zero. exact (Hpos _ _ HX).
        - apply float_pos_not_zero. exact (Hpos _ _ HY). }
      destruct Hcase as [Heq | [(Hz & Fx & Fy) | (N1 & N2 & N3 & N4)]];
        [contradiction | |].
      * destruct (round_trip_zero_value a rx ry Hz (Hpos _ _ HX) Fx
                    (Hpos _ _ HY) Fy) as [Ea Eback].
        rewrite Ea in Hcoerce. rewrite Eback.
        assert (Hclose : (Rabs (0 - number_value n)
                          <= 3 / 10 ^ 14 * Rabs (number_value n))%R).
        { apply (shift_reference _ 0%R); [| exact Hcoerce].
          rewrite Rminus_diag, Rabs_R0. lra. }
        split; [exact Hclose | now apply Hweaker].
      * destruct (div_close a rx N1) as [Hrx0 C1].
        pose proof (mul_close (a / rx) ry N2) as C2.
        destruct (div_close (a / rx * ry) ry N3) as [Hry0 C3].
        pose proof (mul_close (a / rx * ry / ry) rx N4) as C4.
        pose proof (round_trip_chain _ _ _ _ _ _ _ Hrx0 Hry0 C1 C2 C3 C4)
          as Hclose.
        pose proof (shift_reference _ _ _ Hclose Hcoerce) as Hfinal.
        split; [exact Hfinal | now apply Hweaker].
Qed.

Lemma round_trip_within_tolerance_witness :
  exists back,
    round_trip (NumInt 100) "eur" "gbp" FALLBACK_RATES = Return back
    /\ (upper "eur" = upper "gbp" -> back = 100%float)
    /\ (Rabs (float_value back - number_value (NumInt 100))
        <= 3 / 10 ^ 14 * Rabs (number_value (NumInt 100)))%R
    /\ (Rabs (float_value back - number_value (NumInt 100))
        <= 1 / 10 ^ 9 * Rabs (number_value (NumInt 100)))%R.
Proof.
  apply (proj2 round_trip_within_tolerance
           FALLBACK_RATES "eur" "gbp" (NumInt 100) 100%float
           0.92%float 0.80%float).
  - exact FALLBACK_RATES_positive.
  - reflexivity.
  - reflexivity.
  - vm_compute. reflexivity.
  - right. right. repeat split; vm_compute; reflexivity.
Defined.

Example round_trip_eur_gbp :
  round_trip (NumInt 100) "EUR" "GBP" FALLBACK_RATES
  = Return 100.00000000000001%float
  /\ isclose 100.00000000000001%float 100%float 1e-9%float 0%float
     = Return true.
Proof. split; vm_compute; reflexivity. Qed.

(** * Further properties of [convert] *)

Lemma convert_codes (amount : option number) (X X' Y Y' : string)
    (R : pydict float) :
  upper X = upper X' -> upper Y = upper Y' ->
  convert amount X Y R = convert amount X' Y' R.
Proof. intros HX HY. unfold convert. now rewrite HX, HY. Qed.

Lemma convert_errors (amount : option number) (F T : string)
    (R : pydict float) (e : exn) :
  convert amount F T R = Raise e ->
  e = ValueError "Unsupported currency"
  \/ e = ZeroDivisionError
  \/ (e = OverflowError /\ exists z, amount = Some (NumInt z)).
Proof.
  destruct amount as [n |]; [| discriminate].
  destruct (String.eqb_spec (upper F) (upper T)) as [Heq | Hne].
  - rewrite (convert_same n F T R Heq). intros Hraise.
    apply float_of_number_raise in Hraise.
    destruct Hraise as [-> [z ->]]. right. right. eauto.
  - destruct (dict_get R (upper F)) as [rf |] eqn:HF.
    + destruct (dict_get R (upper T)) as [rt |] eqn:HT.
      * rewrite (convert_present n F T R rf rt Hne HF HT).
        destruct (float_of_number n) as [a | e0] eqn:Ha; cbn [bind].
        -- destruct (rf =? 0)%float; [| discriminate].
           intros [= <-]. right. now left.
        -- intros [= <-]. apply float_of_number_raise in Ha.
           destruct Ha as [-> [z ->]]. right. right. eauto.
      * rewrite (convert_missing n F T R Hne (or_intror HT)).
        intros [= <-]. now left.
    + rewrite (convert_missing n F T R Hne (or_introl HF)).
      intros [= <-]. now left.
Qed.

Lemma convert_float_errors (a : float) (F T : string) (R : pydict float)
    (e : exn) :
  convert (Some (NumFloat a)) F T R = Raise e ->
  e = ValueError "Unsupported currency" \/ e = ZeroDivisionError.
Proof.
  intros Hraise. apply convert_errors in Hraise.
  destruct Hraise as [He | [He | [_ [z Hz]]]]; [now left | now right |].
  discriminate Hz.
Qed.

(** X1: the subscripts [rates[...]] are guarded by the membership test: of
    all exceptions only the unsupported-currency [ValueError], the
    [ZeroDivisionError] of the division and the [OverflowError] of
    [float(amount)] on an oversized int can leave [convert]; a [KeyError]
    cannot, and a float amount never overflows. *)
Theorem convert_raises_only (amount : option number) (F T : string)
    (R : pydict float) (e : exn) :
  convert amount F T R = Raise e ->
  e = ValueError "Unsupported currency"
  \/ e = ZeroDivisionError
  \/ (e = OverflowError /\ exists z, amount = Some (NumInt z)).
Proof. apply convert_errors. Qed.

Lemma convert_raises_only_witness :
  OverflowError = ValueError "Unsupported currency"
  \/ OverflowError = ZeroDivisionError
  \/ (OverflowError = OverflowError
      /\ exists z, Some (NumInt (2 ^ 1024)) = Some (NumInt z)).
Proof.
  apply (convert_raises_only (Some (NumInt (2 ^ 1024))) "USD" "EUR"
           test_rates).
  vm_compute. reflexivity.
Defined.

(** X2: with both codes in the table and distinct, and an amount that
    [float] accepts, [convert] fails exactly when the rate of the source
    currency compares equal to zero ([0.0] or [-0.0]), and then with
    [ZeroDivisionError]; the rate of the target currency is never a
    divisor.  An amount that [float] rejects fails with that error before
    any division. *)
Theorem convert_zero_division_iff (n : number) (F T : string)
    (R : pydict float) (rf rt : float) :
  upper F <> upper T ->
  dict_get R (upper F) = Some rf ->
  dict_get R (upper T) = Some rt ->
  (forall a, float_of_number n = Return a ->
     (raises (convert (Some n) F T R) <-> (rf =? 0)%float = true)
     /\ (forall e, convert (Some n) F T R = Raise e ->
           e = ZeroDivisionError))
  /\ (forall e, float_of_number n = Raise e ->
        convert (Some n) F T R = Raise e).
Proof.
  intros Hne HF HT.
  rewrite (convert_present n F T R rf rt Hne HF HT).
  split.
  - intros a ->. cbn [bind].
    destruct (rf =? 0)%float; split.
    + split; [reflexivity | intros _; now exists ZeroDivisionError].
    + now intros e [= <-].
    + split; [intros [e He]; discriminate | discriminate].
    + intros e He. discriminate.
  - intros e ->. reflexivity.
Qed.

Lemma convert_zero_division_iff_witness :
  raises (convert (Some (NumInt 1)) "usd" "eur" zero_rates).
Proof.
  apply (proj1 (convert_zero_division_iff (NumInt 1) "usd" "eur" zero_rates
                  (-0)%float 0.9%float ltac:(simpl; discriminate)
                  eq_refl eq_refl) 1%float).
  - vm_compute. reflexivity.
  - reflexivity.
Defined.

(** ** An intermediate currency, at binary64 *)

Lemma convert_via_same (n : number) (a : float) (X Y Z : string)
    (rates : pydict float) :
  float_of_number n = Return a ->
  upper X = upper Y \/ upper Y = upper Z ->
  convert_via n X Y Z rates = convert (Some n) X Z rates.
Proof.
  intros Ha [Hxy | Hyz]; unfold convert_via.
  - rewrite (convert_same n X Y rates Hxy), Ha. cbn [bind].
    rewrite (convert_coerced n a X Z rates Ha).
    now apply convert_codes.
  - rewrite (convert_codes (Some n) X X Z Y rates eq_refl (eq_sym Hyz)).
    destruct (convert (Some n) X Y rates) as [via | e]; cbn [bind];
      [| reflexivity].
    now apply convert_same.
Qed.

Lemma convert_distinct (n : number) (a : float) (F T : string)
    (rates : pydict float) (rf rt : float) :
  rates_positive rates ->
  float_of_number n = Return a ->
  upper F <> upper T ->
  dict_get rates (upper F) = Some rf ->
  dict_get rates (upper T) = Some rt ->
  convert (Some n) F T rates = Return (a / rf * rt)%float.
Proof.
  intros Hpos Ha Hne HF HT.
  rewrite (convert_present n F T rates rf rt Hne HF HT), Ha. cbn [bind].
  now rewrite (float_pos_not_zero rf (Hpos _ _ HF)).
Qed.

Local Open Scope R_scope.

Lemma convert_via_chain (RY RZ t1 t2 t3 t4 s2 : R) :
  RY <> 0 ->
  Rabs (t2 - t1 * RY) <= eps64 * Rabs t2 ->
  Rabs (t3 - t2 / RY) <= eps64 * Rabs t3 ->
  Rabs (t4 - t3 * RZ) <= eps64 * Rabs t4 ->
  Rabs (s2 - t1 * RZ) <= eps64 * Rabs s2 ->
  Rabs (t4 - s2) <= 3 / 10 ^ 14 * Rabs s2.
Proof.
  intros HRY H2 H3 H4 Hs.
  destruct (relative_factor _ _ H2) as (d2 & Hd2 & E2).
  destruct (relative_factor _ _ H3) as (d3 & Hd3 & E3).
  destruct (relative_factor _ _ H4) as (d4 & Hd4 & E4).
  destruct (relative_factor _ _ Hs) as (e2 & He2 & Es).
  assert (Et2 : t2 = RY * (t3 * (1 + d3))) by (rewrite <- E3; now field).
  assert (Et1 : t1 = t3 * (1 + d3) * (1 + d2)).
  { apply Rmult_eq_reg_r with RY; [| exact HRY].
    rewrite E2, Et2. ring. }
  apply ratio_close with (P := (1 + d4) * (1 + d3) * (1 + d2))
                         (Q := (1 + e2) * (1 + 0) * (1 + 0)).
  - now apply three_factors.
  - apply three_factors; try exact He2;
      rewrite Rabs_R0; unfold eps64; lra.
  - replace (s2 * ((1 + e2) * (1 + 0) * (1 + 0))) with (s2 * (1 + e2))
      by ring.
    rewrite <- Es, Et1.
    replace (t3 * (1 + d3) * (1 + d2) * RZ)
      with (t3 * RZ * ((1 + d3) * (1 + d2))) by ring.
    rewrite E4. ring.
Qed.

Local Close Scope R_scope.

(** X4: going through an intermediate currency.  With positive rates and
    the three codes in the table, X to Y followed by Y to Z is the same
    call as X to Z when Y coincides with X or with Z after uppercasing;
    for three distinct codes the two results are within relative [3e-14]
    of each other, as long as no intermediate result overflows or
    underflows (each is a normal number). *)
Theorem convert_via_close (rates : pydict float) (X Y Z : string)
    (n : number) (a rx ry rz : float) :
  rates_positive rates ->
  dict_get rates (upper X) = Some rx ->
  dict_get rates (upper Y) = Some ry ->
  dict_get rates (upper Z) = Some rz ->
  float_of_number n = Return a ->
  (upper X = upper Y \/ upper Y = upper Z ->
   convert_via n X Y Z rates = convert (Some n) X Z rates)
  /\ (upper X <> upper Y -> upper Y <> upper Z -> upper X <> upper Z ->
      is_normal (a / rx * ry)%float = true ->
      is_normal (a / rx * ry / ry)%float = true ->
      is_normal (a / rx * ry / ry * rz)%float = true ->
      is_normal (a / rx * rz)%float = true ->
      exists via direct,
        convert_via n X Y Z rates = Return via
        /\ convert (Some n) X Z rates = Return direct
        /\ (Rabs (float_value via - float_value direct)
            <= 3 / 10 ^ 14 * Rabs (float_value direct))%R).
Proof.
  intros Hpos HX HY HZ Ha. split.
  - now apply (convert_via_same n a).
  - intros Hxy Hyz Hxz N2 N3 N4 Ns.
    exists (a / rx * ry / ry * rz)%float, (a / rx * rz)%float.
    split; [| split].
    + unfold convert_via.
      rewrite (convert_distinct n a X Y rates rx ry Hpos Ha Hxy HX HY).
      cbn [bind].
      now apply (convert_distinct (NumFloat (a / rx * ry)) (a / rx * ry)
                   Y Z rates ry rz Hpos eq_refl Hyz HY HZ).
    + now apply (convert_distinct n a X Z rates rx rz Hpos Ha Hxz HX HZ).
    + pose proof (mul_close (a / rx) ry N2) as C2.
      destruct (div_close (a / rx * ry) ry N3) as [Hry0 C3].
      pose proof (mul_close (a / rx * ry / ry) rz N4) as C4.
      pose proof (mul_close (a / rx) rz Ns) as Cs.
      exact (convert_via_chain _ _ _ _ _ _ _ Hry0 C2 C3 C4 Cs).
Qed.

Lemma convert_via_close_witness :
  exists via direct,
    convert_via (NumInt 100) "eur" "gbp" "usd" FALLBACK_RATES = Return via
    /\ convert (Some (NumInt 100)) "eur" "usd" FALLBACK_RATES = Return direct
    /\ (Rabs (float_value via - float_value direct)
        <= 3 / 10 ^ 14 * Rabs (float_value direct))%R.
Proof.
  apply (proj2 (convert_via_close FALLBACK_RATES "eur" "gbp" "usd"
                  (NumInt 100) 100%float 0.92%float 0.80%float 1.0%float
                  FALLBACK_RATES_positive eq_refl eq_refl eq_refl
                  ltac:(vm_compute; reflexivity))).
  - simpl. discriminate.
  - simpl. discriminate.
  - simpl. discriminate.
  - vm_compute. reflexivity.
  - vm_compute. reflexivity.
  - vm_compute. reflexivity.
  - vm_compute. reflexivity.
Defined.

(** ** The base of a table, at binary64 *)

Lemma dict_get_rescale (c : float) (R : pydict float) (k : string) :
  dict_get (rescale c R) k
  = option_map (fun v => (v / c)%float) (dict_get R k).
Proof.
  induction R as [| [k' v] rest IH]; simpl; [reflexivity |].
  now destruct (k' =? k)%string.
Qed.

Lemma rebased_is_rescale (ref : float) :
  rebased ref = rescale ref FALLBACK_RATES.
Proof. reflexivity. Qed.

Lemma normal_not_zero (x : float) :
  is_normal x = true -> (x =? 0)%float = false.
Proof.
  unfold is_normal. rewrite classify_spec, FloatAxioms.eqb_spec.
  destruct (Prim2SF x) as [s | s | | s m e];
    try (destruct s; discriminate); try discriminate.
  intros _. now destruct s.
Qed.

Local Open Scope R_scope.

Lemma rescale_chain (A RX RY C rx' ry' u1 u2 s1 s2 : R) :
  RX <> 0 -> C <> 0 -> rx' <> 0 ->
  Rabs (rx' - RX / C) <= eps64 * Rabs rx' ->
  Rabs (ry' - RY / C) <= eps64 * Rabs ry' ->
  Rabs (u1 - A / rx') <= eps64 * Rabs u1 ->
  Rabs (u2 - u1 * ry') <= eps64 * Rabs u2 ->
  Rabs (s1 - A / RX) <= eps64 * Rabs s1 ->
  Rabs (s2 - s1 * RY) <= eps64 * Rabs s2 ->
  Rabs (u2 - s2) <= 3 / 10 ^ 14 * Rabs s2.
Proof.
  intros HRX HC Hrx' G1 G2 H1 H2 S1 S2.
  destruct (relative_factor _ _ G1) as (g1 & Hg1 & Eg1).
  destruct (relative_factor _ _ G2) as (g2 & Hg2 & Eg2).
  destruct (relative_factor _ _ H1) as (h1 & Hh1 & Eh1).
  destruct (relative_factor _ _ H2) as (h2 & Hh2 & Eh2).
  destruct (relative_factor _ _ S1) as (e1 & He1 & Ee1).
  destruct (relative_factor _ _ S2) as (e2 & He2 & Ee2).
  apply ratio_close with (P := (1 + h2) * (1 + h1) * (1 + g2))
                         (Q := (1 + e2) * (1 + e1) * (1 + g1)).
  - now apply three_factors.
  - now apply three_factors.
  - apply Rmult_eq_reg_r with (RX / C);
      [| unfold Rdiv; apply Rmult_integral_contrapositive_currified;
         [exact HRX | now apply Rinv_neq_0_compat]].
    assert (EA1 : A = rx' * (u1 * (1 + h1))) by (rewrite <- Eh1; now field).
    assert (EA2 : A = RX * (s1 * (1 + e1))) by (rewrite <- Ee1; now field).
    assert (ERY : RY = C * (ry' * (1 + g2))) by (rewrite <- Eg2; now field).
    transitivity (A * (ry' * (1 + g2)) * (1 + g1)).
    + rewrite Eg1.
      replace (u2 * ((1 + h2) * (1 + h1) * (1 + g2)) * (rx' * (1 + g1)))
        with (rx' * (u2 * (1 + h2) * (1 + h1)) * (1 + g2) * (1 + g1))
        by ring.
      rewrite <- Eh2.
      replace (rx' * (u1 * ry' * (1 + h1)) * (1 + g2) * (1 + g1))
        with (rx' * (u1 * (1 + h1)) * (ry' * (1 + g2)) * (1 + g1)) by ring.
      now rewrite <- EA1.
    + replace (s2 * ((1 + e2) * (1 + e1) * (1 + g1)) * (RX / C))
        with (RX * (s2 * (1 + e2) * (1 + e1)) * (1 + g1) / C)
        by (now field).
      rewrite <- Ee2.
      replace (RX * (s1 * RY * (1 + e1)) * (1 + g1) / C)
        with (RX * (s1 * (1 + e1)) * (RY / C) * (1 + g1)) by (now field).
      rewrite <- EA2, Eg2. ring.
Qed.

Local Close Scope R_scope.

(** X6: dividing every rate of a table by one constant, as the fallback
    path of [get_rates] does to change the base, changes a conversion by
    at most relative [3e-14], as long as the two rescaled rates and the
    intermediate results neither overflow nor underflow (each is a normal
    number); for codes that agree after uppercasing it changes nothing. *)
Theorem convert_rescaled_close (rates : pydict float) (c : float)
    (X Y : string) (n : number) (a rx ry : float) :
  rates_positive rates ->
  dict_get rates (upper X) = Some rx ->
  dict_get rates (upper Y) = Some ry ->
  float_of_number n = Return a ->
  (upper X = upper Y ->
   convert (Some n) X Y (rescale c rates) = convert (Some n) X Y rates)
  /\ (upper X <> upper Y ->
      is_normal (rx / c)%float = true ->
      is_normal (ry / c)%float = true ->
      is_normal (a / (rx / c))%float = true ->
      is_normal (a / (rx / c) * (ry / c))%float = true ->
      is_normal (a / rx)%float = true ->
      is_normal (a / rx * ry)%float = true ->
      exists scaled plain,
        convert (Some n) X Y (rescale c rates) = Return scaled
        /\ convert (Some n) X Y rates = Return plain
        /\ (Rabs (float_value scaled - float_value plain)
            <= 3 / 10 ^ 14 * Rabs (float_value plain))%R).
Proof.
  intros Hpos HX HY Ha. split.
  - intros Heq. now rewrite !convert_same.
  - intros Hne Nrx Nry N1 N2 M1 M2.
    exists (a / (rx / c) * (ry / c))%float, (a / rx * ry)%float.
    split; [| split].
    + rewrite (convert_present n X Y (rescale c rates)
                 (rx / c)%float (ry / c)%float Hne).
      * rewrite Ha. cbn [bind]. now rewrite (normal_not_zero _ Nrx).
      * now rewrite dict_get_rescale, HX.
      * now rewrite dict_get_rescale, HY.
    + now apply (convert_distinct n a X Y rates rx ry Hpos Ha Hne HX HY).
    + destruct (div_close rx c Nrx) as [Hc0 G1].
      destruct (div_close ry c Nry) as [_ G2].
      destruct (div_close a (rx / c) N1) as [Hrx' H1].
      pose proof (mul_close (a / (rx / c)) (ry / c) N2) as H2.
      destruct (div_close a rx M1) as [Hrx0 S1].
      pose proof (mul_close (a / rx) ry M2) as S2.
      exact (rescale_chain _ _ _ _ _ _ _ _ _ _ Hrx0 Hc0 Hrx'
               G1 G2 H1 H2 S1 S2).
Qed.

Lemma convert_rescaled_close_witness :
  exists scaled plain,
    convert (Some (NumInt 100)) "eur" "gbp" (rescale 83.0%float FALLBACK_RATES)
    = Return scaled
    /\ convert (Some (NumInt 100)) "eur" "gbp" FALLBACK_RATES = Return plain
    /\ (Rabs (float_value scaled - float_value plain)
        <= 3 / 10 ^ 14 * Rabs (float_value plain))%R.
Proof.
  apply (proj2 (convert_rescaled_close FALLBACK_RATES 83.0%float "eur" "gbp"
                  (NumInt 100) 100%float 0.92%float 0.80%float
                  FALLBACK_RATES_positive eq_refl eq_refl
                  ltac:(vm_compute; reflexivity))).
  - simpl. discriminate.
  - vm_compute. reflexivity.
  - vm_compute. reflexivity.
  - vm_compute. reflexivity.
  - vm_compute. reflexivity.
  - vm_compute. reflexivity.
  - vm_compute. reflexivity.
Defined.

(** * Further properties of [get_rates] *)

(** ** Assignment into a dictionary *)

Section DictSetitem.
Context {V : Type}.

Lemma dict_get_setitem_same (d : pydict V) (k : string) (v : V) :
  dict_get (dict_setitem d k v) k = Some v.
Proof.
  induction d as [| [k' v'] rest IH]; simpl.
  - now rewrite String.eqb_refl.
  - destruct (k' =? k)%string eqn:Hk; simpl; now rewrite Hk.
Qed.

Lemma dict_get_setitem_other (d : pydict V) (k k' : string) (v : V) :
  k <> k' -> dict_get (dict_setitem d k v) k' = dict_get d k'.
Proof.
  intros Hne. induction d as [| [k0 v0] rest IH]; simpl.
  - now rewrite (proj2 (String.eqb_neq k k') Hne).
  - destruct (String.eqb_spec k0 k) as [-> | Hk0]; simpl.
    + now rewrite (proj2 (String.eqb_neq k k') Hne).
    + now rewrite IH.
Qed.

Lemma dict_get_None_keys (d : pydict V) (k : string) :
  dict_get d k = None <-> ~ In k (dict_keys d).
Proof.
  induction d as [| [k' v'] rest IH]; simpl.
  - split; [intros _ [] | reflexivity].
  - destruct (String.eqb_spec k' k) as [-> | Hne].
    + split; [discriminate | intros Hnot; exfalso; apply Hnot; now left].
    + rewrite IH. split.
      * intros Hnot [Heq | Hin]; [now apply Hne | now apply Hnot].
      * intros Hnot Hin. apply Hnot. now right.
Qed.

Lemma dict_keys_In_get (d : pydict V) (k : string) :
  In k (dict_keys d) <-> exists v, dict_get d k = Some v.
Proof.
  destruct (dict_get d k) as [v |] eqn:Hget.
  - split; [intros _; now exists v |].
    intros _. apply dict_get_In in Hget.
    change k with (fst (k, v)). now apply in_map.
  - split.
    + intros Hin. now apply dict_get_None_keys in Hget.
    + intros [v Hv]. discriminate.
Qed.

Lemma dict_keys_setitem (d : pydict V) (k : string) (v : V) :
  dict_keys (dict_setitem d k v) =
    if dict_contains d k then dict_keys d else (dict_keys d ++ [k])%list.
Proof.
  unfold dict_contains.
  induction d as [| [k' v'] rest IH]; simpl; [reflexivity |].
  destruct (String.eqb_spec k' k) as [-> | Hne]; simpl; [reflexivity |].
  rewrite IH. now destruct (dict_get rest k).
Qed.

Lemma dict_setitem_NoDup (d : pydict V) (k : string) (v : V) :
  NoDup (dict_keys d) -> NoDup (dict_keys (dict_setitem d k v)).
Proof.
  intros Hnd. rewrite dict_keys_setitem. unfold dict_contains.
  destruct (dict_get d k) as [v' |] eqn:Hget; [exact Hnd |].
  apply dict_get_None_keys in Hget.
  apply NoDup_app; [exact Hnd | repeat constructor; intros [] |].
  intros x Hx [<- | []]. now apply Hget.
Qed.
End DictSetitem.

(** ** The table built from a live payload *)

Section LiveTable.
Variable rt : runtime.

Lemma dict_keys_setitem_In {V : Type} (d : pydict V) (k key : string) (v : V) :
  In key (dict_keys (dict_setitem d k v)) <-> In key (dict_keys d) \/ key = k.
Proof.
  rewrite dict_keys_setitem. unfold dict_contains.
  destruct (dict_get d k) as [v' |] eqn:Hget.
  - split; [now left |].
    intros [Hin | ->]; [exact Hin |].
    apply dict_keys_In_get. now exists v'.
  - rewrite in_app_iff. simpl. split.
    + intros [Hin | [<- | []]]; [now left | now right].
    + intros [Hin | ->]; [now left | right; now left].
Qed.

Lemma live_table_keys (entries : list (string * pyobj)) :
  forall (acc t : pydict float),
    live_table rt entries acc = Return t ->
    forall key,
      In key (dict_keys t) <->
      In key (dict_keys acc)
      \/ exists k v, In (k, v) entries /\ upper k = key.
Proof.
  induction entries as [| [k v] rest IH]; intros acc t Hrun key.
  - injection Hrun as <-. split; [now left |].
    intros [Hin | (k & v & [] & _)]. exact Hin.
  - simpl in Hrun.
    destruct (py_float rt v) as [f | e]; [| discriminate]. simpl in Hrun.
    rewrite (IH _ _ Hrun key), dict_keys_setitem_In. split.
    + intros [[Hin | ->] | (k' & v' & Hin & Hup)].
      * now left.
      * right. exists k, v. split; [now left | reflexivity].
      * right. exists k', v'. split; [now right | exact Hup].
    + intros [Hin | (k' & v' & [Heq | Hin] & Hup)].
      * left. now left.
      * injection Heq as <- <-. left. right. now symmetry.
      * right. now exists k', v'.
Qed.

Lemma live_table_NoDup (entries : list (string * pyobj)) :
  forall (acc t : pydict float),
    NoDup (dict_keys acc) ->
    live_table rt entries acc = Return t ->
    NoDup (dict_keys t).
Proof.
  induction entries as [| [k v] rest IH]; intros acc t Hnd Hrun.
  - now injection Hrun as <-.
  - simpl in Hrun.
    destruct (py_float rt v) as [f | e]; [| discriminate]. simpl in Hrun.
    apply (IH _ _ (dict_setitem_NoDup acc (upper k) f Hnd) Hrun).
Qed.

Lemma live_table_untouched (entries : list (string * pyobj)) (key : string) :
  Forall (fun kv => upper (fst kv) <> key) entries ->
  forall (acc t : pydict float),
    live_table rt entries acc = Return t ->
    dict_get t key = dict_get acc key.
Proof.
  induction 1 as [| [k v] rest Hk Hrest IH]; intros acc t Hrun.
  - now injection Hrun as <-.
  - simpl in Hrun.
    destruct (py_float rt v) as [f | e]; [| discriminate]. simpl in Hrun.
    rewrite (IH _ _ Hrun). now apply dict_get_setitem_other.
Qed.

Lemma live_table_app (before after : list (string * pyobj)) :
  forall acc : pydict float,
    live_table rt (before ++ after) acc =
      (mid <- live_table rt before acc ;; live_table rt after mid).
Proof.
  induction before as [| [k v] rest IH]; intros acc; simpl; [reflexivity |].
  destruct (py_float rt v) as [f | e]; simpl; [apply IH | reflexivity].
Qed.

Lemma live_table_bad_rate (entries : list (string * pyobj)) (k : string)
    (v : pyobj) (e : exn) :
  In (k, v) entries ->
  py_float rt v = Raise e ->
  forall acc : pydict float, raises (live_table rt entries acc).
Proof.
  intros Hin Hbad.
  induction entries as [| [k' v'] rest IH]; intros acc; [destruct Hin |].
  simpl. destruct Hin as [Heq | Hin].
  - injection Heq as -> ->. rewrite Hbad. now exists e.
  - destruct (py_float rt v') as [f | e']; simpl.
    + now apply IH.
    + now exists e'.
Qed.
End LiveTable.

(** X8: the table built from a live payload has each key once, and its keys
    are exactly the uppercased keys of the payload, so every key is in
    uppercase; a non-empty payload gives a non-empty table. *)
Theorem live_table_shape (rt : runtime) (entries : list (string * pyobj))
    (t : pydict float) :
  live_table rt entries [] = Return t ->
  NoDup (dict_keys t)
  /\ (forall key,
        In key (dict_keys t) <->
        exists k v, In (k, v) entries /\ upper k = key)
  /\ Forall (fun key => upper key = key) (dict_keys t)
  /\ (entries <> [] -> t <> []).
Proof.
  intros Hrun.
  assert (Hkeys : forall key,
             In key (dict_keys t) <->
             exists k v, In (k, v) entries /\ upper k = key).
  { intros key. rewrite (live_table_keys rt entries [] t Hrun key).
    simpl. tauto. }
  split; [| split; [exact Hkeys | split]].
  - apply (live_table_NoDup rt entries [] t); [constructor | exact Hrun].
  - apply Forall_forall. intros key Hin.
    apply Hkeys in Hin. destruct Hin as (k & v & _ & <-).
    apply upper_idempotent.
  - intros Hne ->.
    destruct entries as [| [k v] rest]; [now apply Hne |].
    apply (proj2 (Hkeys (upper k))).
    exists k, v. split; [now left | reflexivity].
Qed.

Lemma live_table_shape_witness :
  NoDup (dict_keys [("EUR", 0.9%float); ("USD", 1%float)])
  /\ (forall key,
        In key (dict_keys [("EUR", 0.9%float); ("USD", 1%float)]) <->
        exists k v, In (k, v) twice_entries /\ upper k = key)
  /\ Forall (fun key => upper key = key)
       (dict_keys [("EUR", 0.9%float); ("USD", 1%float)])
  /\ (twice_entries <> [] -> [("EUR", 0.9%float); ("USD", 1%float)] <> []).
Proof.
  apply (live_table_shape offline twice_entries).
  vm_compute. reflexivity.
Defined.

(** X9: when a payload names a currency more than once (in any mix of cases),
    the rate kept under the uppercased code is the one of the last such
    entry. *)
Theorem live_table_last_wins (rt : runtime)
    (before after : list (string * pyobj)) (k : string) (v : pyobj)
    (t : pydict float) :
  live_table rt (before ++ (k, v) :: after) [] = Return t ->
  Forall (fun kv => upper (fst kv) <> upper k) after ->
  exists f, py_float rt v = Return f /\ dict_get t (upper k) = Some f.
Proof.
  intros Hrun Hlast.
  rewrite live_table_app in Hrun.
  destruct (live_table rt before []) as [mid | e]; [| discriminate].
  simpl in Hrun.
  destruct (py_float rt v) as [f | e]; [| discriminate]. simpl in Hrun.
  exists f. split; [reflexivity |].
  rewrite (live_table_untouched rt after (upper k) Hlast _ _ Hrun).
  apply dict_get_setitem_same.
Qed.

Lemma live_table_last_wins_witness :
  exists f,
    py_float offline (PyFloat 0.9%float) = Return f
    /\ dict_get [("EUR", 0.9%float); ("USD", 1%float)] (upper "EUR") = Some f.
Proof.
  apply (live_table_last_wins offline
           [("eur", PyFloat 0.5%float); ("USD", PyInt 1)] []
           "EUR" (PyFloat 0.9%float)).
  - vm_compute. reflexivity.
  - constructor.
Defined.

(** X10: one rate that [float] rejects discards the whole live payload:
    whatever the other entries and the status, [get_rates] answers with
    the fallback table. *)
Theorem get_rates_bad_rate_falls_back (rt : runtime) (base : string)
    (get : string -> Z -> result response) (resp : response)
    (items entries : list (string * pyobj)) (k : string) (v : pyobj)
    (e : exn) :
  requests rt = Some get ->
  get (rates_url (upper base)) 5%Z = Return resp ->
  json resp = Return (PyDict items) ->
  dict_get items "rates" = Some (PyDict entries) ->
  In (k, v) entries ->
  py_float rt v = Raise e ->
  get_rates rt base = fallback_rates (upper base).
Proof.
  intros Hreq Hget Hjson Hrates Hin Hbad.
  apply get_rates_on_fallback, live_failure_no_table.
  destruct (Z.eq_dec (status_code resp) 200) as [Hst | Hst].
  - destruct (live_table_bad_rate rt entries k v e Hin Hbad []) as [e' He'].
    now apply (rate_not_numeric rt (upper base) get resp items entries e').
  - now apply (bad_status rt (upper base) get resp).
Qed.

Lemma get_rates_bad_rate_falls_back_witness :
  get_rates null_rate_service "gbp" = fallback_rates (upper "gbp").
Proof.
  apply (get_rates_bad_rate_falls_back null_rate_service "gbp"
           (fun _ _ => Return null_response) null_response
           [("rates", PyDict null_entries)] null_entries
           "EUR" PyNone TypeError).
  - reflexivity.
  - reflexivity.
  - reflexivity.
  - reflexivity.
  - right. left. reflexivity.
  - reflexivity.
Defined.

(** ** Live table or fallback table *)

Lemma live_attempt_some (rt : runtime) (base : string) (t : pydict float) :
  live_attempt rt base = Some t ->
  exists get resp items entries,
    requests rt = Some get
    /\ get (rates_url base) 5%Z = Return resp
    /\ status_code resp = 200%Z
    /\ json resp = Return (PyDict items)
    /\ dict_get items "rates" = Some (PyDict entries)
    /\ entries <> []
    /\ live_table rt entries [] = Return t.
Proof.
  unfold live_attempt.
  destruct (requests rt) as [get |] eqn:Hreq; [| discriminate].
  unfold live_rates.
  destruct (get (rates_url base) 5%Z) as [resp | e] eqn:Hget;
    [| discriminate].
  cbn [bind].
  destruct (Z.eqb_spec (status_code resp) 200) as [Hst | Hst];
    [| discriminate].
  destruct (json resp) as [data | e] eqn:Hjson; [| discriminate].
  cbn [bind].
  destruct data as [| b | z | f | s | elems | items]; try discriminate.
  cbn [py_get bind].
  destruct (dict_get items "rates") as [v |] eqn:Hrates; [| discriminate].
  destruct v as [| b | z | f | s | elems | entries]; try discriminate.
  destruct entries as [| entry entries]; [discriminate |].
  unfold dict_truthy.
  destruct (live_table rt (entry :: entries) []) as [table | e] eqn:Htab;
    [| discriminate].
  intros [= <-].
  exists get, resp, items, (entry :: entries).
  repeat split; try assumption. discriminate.
Qed.

(** X7: [get_rates] answers with the fallback table exactly when the live
    retrieval fails in one of the listed ways; otherwise the service
    answered 200 with an object whose ["rates"] entry is a non-empty
    object of rates that [float] accepts, and the answer is the table
    built from it, whatever base was asked for. *)
Theorem get_rates_live_or_fallback (rt : runtime) (base : string) :
  (live_failure rt (upper base)
   /\ get_rates rt base = fallback_rates (upper base))
  \/ (~ live_failure rt (upper base)
      /\ exists get resp items entries t,
           requests rt = Some get
           /\ get (rates_url (upper base)) 5%Z = Return resp
           /\ status_code resp = 200%Z
           /\ json resp = Return (PyDict items)
           /\ dict_get items "rates" = Some (PyDict entries)
           /\ entries <> []
           /\ live_table rt entries [] = Return t
           /\ get_rates rt base = Return t).
Proof.
  destruct (live_attempt rt (upper base)) as [t |] eqn:Hlive.
  - right. split.
    + intros Hfail. apply live_failure_no_table in Hfail. congruence.
    + destruct (live_attempt_some rt (upper base) t Hlive)
        as (get & resp & items & entries & H1 & H2 & H3 & H4 & H5 & H6 & H7).
      exists get, resp, items, entries, t.
      repeat split; try assumption.
      unfold get_rates. now rewrite Hlive.
  - left. split.
    + now apply no_table_live_failure.
    + now apply get_rates_on_fallback.
Qed.

(** ** The fallback path for USD and for unknown bases *)

(** X11: when the live retrieval fails and the base is USD or is no key of the
    fallback table, [get_rates] answers with [FALLBACK_RATES] itself: an
    unknown base is served with rates relative to USD. *)
Theorem get_rates_unknown_base (rt : runtime) (base : string) :
  live_attempt rt (upper base) = None ->
  dict_contains FALLBACK_RATES (upper base) = false \/ upper base = "USD" ->
  get_rates rt base = Return FALLBACK_RATES.
Proof.
  intros Hlive Hbase.
  rewrite (get_rates_on_fallback rt base Hlive).
  unfold fallback_rates.
  destruct Hbase as [Habs | ->]; [| vm_compute; reflexivity].
  apply dict_contains_false in Habs. rewrite Habs.
  vm_compute. reflexivity.
Qed.

Lemma get_rates_unknown_base_witness :
  get_rates server_error "chf" = Return FALLBACK_RATES.
Proof.
  apply (get_rates_unknown_base server_error "chf").
  - reflexivity.
  - left. reflexivity.
Defined.

(** ** [get_rates] followed by [convert] *)

Lemma supported_in_rebased (ref : float) (code : string) :
  In code supported_currencies ->
  upper code = code
  /\ exists r, dict_get (rebased ref) code = Some r.
Proof.
  rewrite supported_currencies_value. simpl.
  intros Hin.
  repeat (destruct Hin as [<- | Hin];
          [split; [reflexivity | eexists; reflexivity] |]).
  destruct Hin.
Qed.

Lemma convert_supported_rebased (ref : float) (n : number) (a : float)
    (F T : string) :
  Forall (fun kv => (0 <? snd kv)%float = true) (rebased ref) ->
  float_of_number n = Return a ->
  In F supported_currencies ->
  In T supported_currencies ->
  exists out, convert (Some n) F T (rebased ref) = Return out.
Proof.
  intros Hpos Ha HF HT.
  destruct (supported_in_rebased ref F HF) as (HupF & rf & HgetF).
  destruct (supported_in_rebased ref T HT) as (HupT & rt' & HgetT).
  destruct (String.eqb_spec (upper F) (upper T)) as [Heq | Hne].
  - exists a. rewrite <- Ha. now apply convert_same.
  - exists (a / rf * rt')%float.
    rewrite <- HupF in HgetF. rewrite <- HupT in HgetT.
    rewrite (convert_present n F T (rebased ref) rf rt' Hne HgetF HgetT), Ha.
    cbn [bind].
    assert (Hnz : (rf =? 0)%float = false).
    { apply float_pos_not_zero.
      apply dict_get_In in HgetF.
      rewrite Forall_forall in Hpos.
      exact (Hpos _ HgetF). }
    now rewrite Hnz.
Qed.

(** X12: on the fallback path, every pair of supported currencies converts:
    for any base and any amount that [float] accepts (every float, every
    int within range), [convert] with the table of [get_rates] returns a
    number for codes taken from [supported_currencies]. *)
Theorem convert_supported_on_fallback (rt : runtime) (base : string)
    (n : number) (a : float) (F T : string) :
  live_attempt rt (upper base) = None ->
  float_of_number n = Return a ->
  In F supported_currencies ->
  In T supported_currencies ->
  exists table out,
    get_rates rt base = Return table
    /\ convert (Some n) F T table = Return out.
Proof.
  intros Hlive Ha HF HT.
  rewrite (get_rates_on_fallback rt base Hlive).
  destruct (fallback_rates_rebased (upper base))
    as (ref & _ & Htab & _ & Hpos).
  destruct (convert_supported_rebased ref n a F T Hpos Ha HF HT)
    as [out Hout].
  now exists (rebased ref), out.
Qed.

Lemma convert_supported_on_fallback_witness :
  exists table out,
    get_rates offline "inr" = Return table
    /\ convert (Some (NumFloat 100%float)) "JPY" "AUD" table = Return out.
Proof.
  apply (convert_supported_on_fallback offline "inr" (NumFloat 100%float)
           100%float "JPY" "AUD").
  - reflexivity.
  - reflexivity.
  - vm_compute. tauto.
  - vm_compute. tauto.
Defined.

(** * The page *)

Lemma get_rates_returns (rt : runtime) (base : string) :
  exists table, get_rates rt base = Return table.
Proof.
  unfold get_rates.
  destruct (live_attempt rt (upper base)) as [table |].
  - now exists table.
  - apply fallback_rates_returns.
Qed.

Lemma untouched_sound : selectbox_sound untouched.
Proof.
  intros label options index Hne. simpl.
  destruct (Nat.lt_ge_cases index (List.length options)) as [Hlt | Hge].
  - now apply nth_In.
  - rewrite (nth_overflow _ _ Hge).
    destruct options as [| o rest]; [now destruct Hne | now left].
Qed.

(** X13: [run] stops early only when the [streamlit] import fails, with its
    [RuntimeError]; with [streamlit] at hand the page is always drawn,
    whatever the rate service and the selection do. *)
Theorem run_aborts_iff_no_streamlit (rt : runtime) (page : page_runtime) :
  ((exists e, run rt page = Aborted e) <-> streamlit_module page = None)
  /\ (forall e, run rt page = Aborted e -> exists msg, e = RuntimeError msg).
Proof.
  unfold run.
  destruct (streamlit_module page) as [st |].
  - destruct (get_rates_returns rt "USD") as [rates ->].
    split; [split |].
    + intros [e He]. discriminate.
    + discriminate.
    + intros e He. discriminate.
  - split; [split |].
    + reflexivity.
    + intros _. eexists. reflexivity.
    + intros e [= <-]. eexists. reflexivity.
Qed.

(** X14: the error box of the page can only carry the two exceptions of
    [convert]: the unsupported-currency [ValueError] or a
    [ZeroDivisionError]. *)
Theorem run_error_box (rt : runtime) (page : page_runtime)
    (calls : list st_call) (e : exn) :
  run rt page = Rendered calls ->
  In (StError e) calls ->
  e = ValueError "Unsupported currency" \/ e = ZeroDivisionError.
Proof.
  unfold run.
  destruct (streamlit_module page) as [st |]; [| discriminate].
  destruct (get_rates rt "USD") as [rates | e']; [| discriminate].
  cbv zeta.
  match goal with
  | |- context [convert ?a ?f ?t rates] =>
      destruct (convert a f t rates) as [out | e'] eqn:Hconv
  end.
  - intros [= <-]. simpl.
    destruct (pandas_module page); intuition discriminate.
  - intros [= <-] Hin. simpl in Hin.
    assert (He : e' = e).
    { destruct (pandas_module page);
        repeat (destruct Hin as [Hin | Hin]; try discriminate Hin);
        try (now injection Hin); destruct Hin. }
    subst e'. exact (convert_float_errors _ _ _ _ _ Hconv).
Qed.

(** X15: when the live retrieval fails, the page never shows the error box:
    whatever the user selects in the two select boxes and types as the
    amount, the converted amount is shown. *)
Theorem run_on_fallback_shows_metric (rt : runtime) (page : page_runtime)
    (st : streamlit) :
  streamlit_module page = Some st ->
  selectbox_sound st ->
  live_attempt rt (upper "USD") = None ->
  exists calls,
    run rt page = Rendered calls
    /\ (forall e, ~ In (StError e) calls)
    /\ (exists value, In (StMetric "Converted amount" value) calls).
Proof.
  intros Hst Hsound Hlive. unfold run. rewrite Hst.
  rewrite (get_rates_on_fallback rt "USD" Hlive).
  destruct (fallback_rates_rebased (upper "USD"))
    as (ref & _ & Htab & _ & Hpos).
  rewrite Htab.
  assert (Hne : supported_currencies <> []) by discriminate.
  destruct (convert_supported_rebased ref
              (NumFloat (number_input_value st "Amount" 100.0%float))
              (number_input_value st "Amount" 100.0%float)
              (selectbox_value st "From" supported_currencies 0)
              (selectbox_value st "To" supported_currencies 1)
              Hpos eq_refl (Hsound _ _ _ Hne) (Hsound _ _ _ Hne))
    as [out Hout].
  rewrite Hout.
  eexists. split; [reflexivity |]. split.
  - intros e Hin. simpl in Hin.
    destruct (pandas_module page); intuition discriminate.
  - eexists. simpl. do 6 right. left. reflexivity.
Qed.

Lemma run_on_fallback_shows_metric_witness :
  exists calls,
    run server_error plain_page = Rendered calls
    /\ (forall e, ~ In (StError e) calls)
    /\ (exists value, In (StMetric "Converted amount" value) calls).
Proof.
  apply (run_on_fallback_shows_metric server_error plain_page untouched).
  - reflexivity.
  - exact untouched_sound.
  - reflexivity.
Defined.

Lemma run_aborts_iff_no_streamlit_witness :
  exists e, run live_service no_streamlit = Aborted e.
Proof.
  apply (run_aborts_iff_no_streamlit live_service no_streamlit).
  reflexivity.
Defined.

Lemma run_error_box_witness :
  ValueError "Unsupported currency" = ValueError "Unsupported currency"
  \/ ValueError "Unsupported currency" = ZeroDivisionError.
Proof.
  apply (run_error_box live_service plain_page
           (match run live_service plain_page with
            | Rendered calls => calls
            | Aborted _ => []
            end)
           (ValueError "Unsupported currency")).
  - vm_compute. reflexivity.
  - vm_compute. do 6 right. left. reflexivity.
Defined.

(** * A zero amount at binary64 *)

(** X3: with positive finite rates and both codes in the table, a zero amount
    converts to zero: no rounding is involved, and no NaN appears. *)
Theorem convert_zero_amount (F T : string) (R : pydict float) :
  rates_positive R ->
  (forall k v, dict_get R k = Some v -> (v <? infinity)%float = true) ->
  dict_contains R (upper F) = true ->
  dict_contains R (upper T) = true ->
  convert (Some (NumFloat 0%float)) F T R = Return 0%float.
Proof.
  intros Hpos Hfin HF HT.
  destruct (String.eqb_spec (upper F) (upper T)) as [Heq | Hne].
  - now apply convert_same.
  - apply dict_contains_true in HF, HT.
    destruct HF as [rf HF], HT as [rt HT].
    rewrite (convert_present (NumFloat 0%float) F T R rf rt Hne HF HT).
    cbn [float_of_number bind].
    assert (Hnz : (rf =? 0)%float = false)
      by exact (float_pos_not_zero rf (Hpos _ _ HF)).
    rewrite Hnz. f_equal.
    pose proof (Hpos _ _ HF) as Hrf. pose proof (Hpos _ _ HT) as Hrt.
    pose proof (Hfin _ _ HT) as Hrt_fin.
    simpl in Hrf, Hrt.
    rewrite FloatAxioms.ltb_spec in Hrf, Hrt, Hrt_fin.
    apply Prim2SF_inj.
    rewrite mul_spec, div_spec.
    change (Prim2SF 0) with (S754_zero false) in *.
    change (Prim2SF infinity) with (S754_infinity false) in *.
    destruct (Prim2SF rf) as [sf | sf | | sf mf ef];
      try discriminate Hrf;
      destruct sf; try discriminate Hrf;
      destruct (Prim2SF rt) as [st | st | | st mt et];
      try discriminate Hrt;
      destruct st; try discriminate Hrt; try discriminate Hrt_fin;
      reflexivity.
Qed.

Lemma convert_zero_amount_witness :
  convert (Some (NumFloat 0%float)) "eur" "gbp" test_rates = Return 0%float.
Proof.
  apply (convert_zero_amount "eur" "gbp" test_rates).
  - exact test_rates_positive.
  - intros k v Hget. apply dict_get_In in Hget. simpl in Hget.
    repeat (destruct Hget as [Hget | Hget];
            [injection Hget as <- <-; reflexivity |]).
    destruct Hget.
  - reflexivity.
  - reflexivity.
Defined.
